(** * BookFinder: the search session controller of [src/App.jsx]

    A shallow embedding of the React component [BookFinder]: its state
    variables, its two effects (the debounce of the search box and the
    cancellable fetch), its event handlers and its helper [coverFor],
    followed by the properties the specification states about them.

    Conventions of the embedding.
    - A JavaScript string is a [string]; each [ascii] stands for one code
      unit below 256.
    - A JavaScript number that the program only uses as an integer (years,
      cover ids, page numbers, counts, HTTP status codes) is a [Z]; clock
      readings and delays are [N] milliseconds.
    - A property that may be missing from an object ([undefined]) is an
      [option].
    - An array is a [list]; where identity matters (the copy taken before
      sorting) arrays live in an explicit heap, see [Module Arrays].
    - The body of a search response is typed in the events of the
      transition system: [numFound], when present, is a number and [docs],
      when present, is an array of book objects.  A body whose [docs] is
      another kind of value is treated apart, see [bodyResolved].
    - [localStorage] holds parsed values; [JSON.stringify] and [JSON.parse]
      are not modelled.
    - The component state keeps the one timeout that [debounceRef.current]
      refers to.  [Tab] adds the timeouts of the browser, each with its id,
      for the properties that depend on [clearTimeout]; [tab_refines]
      relates the two. *)

From Stdlib Require Import List String Ascii ZArith NArith Lia Bool.
From Stdlib Require Import Permutation Sorted DecimalString.
Import ListNotations.

Local Open Scope string_scope.
Local Open Scope Z_scope.

(** ** JavaScript primitives used by the component *)

(** [`${n}`] for an integer [n]: its decimal numeral. *)
Definition string_of_Z (n : Z) : string := NilZero.string_of_int (Z.to_int n).

(** White space in the sense of [String.prototype.trim], restricted to code
    units below 256: TAB, LF, VT, FF, CR, SPACE and NO-BREAK SPACE. *)
Definition is_white_space (c : ascii) : bool :=
  let n := nat_of_ascii c in
  ((9 <=? n)%nat && (n <=? 13)%nat) || (n =? 32)%nat || (n =? 160)%nat.

Fixpoint trimStart_chars (l : list ascii) : list ascii :=
  match l with
  | c :: l' => if is_white_space c then trimStart_chars l' else l
  | [] => []
  end.

(** [s.trim()] *)
Definition trim (s : string) : string :=
  string_of_list_ascii
    (rev (trimStart_chars (rev (trimStart_chars (list_ascii_of_string s))))).

(** Truthiness of a string: [""] is falsy. *)
Definition nonempty (s : string) : bool := negb (s =? "")%string.

(** The value of an optional number when it is truthy: [undefined] and
    [0] are falsy. *)
Definition truthy_num (o : option Z) : option Z :=
  match o with
  | Some n => if n =? 0 then None else Some n
  | None => None
  end.

(** The value of an optional string when it is truthy: [undefined] and
    [""] are falsy. *)
Definition truthy_str (o : option string) : option string :=
  match o with
  | Some s => if nonempty s then Some s else None
  | None => None
  end.

(** [o || d] for an optional number. *)
Definition num_or (o : option Z) (d : Z) : Z :=
  match truthy_num o with Some n => n | None => d end.

(** [o || d] for an optional string. *)
Definition str_or (o : option string) (d : string) : string :=
  match truthy_str o with Some s => s | None => d end.

(** [o || []] for an optional array. *)
Definition list_or_empty {A : Type} (o : option (list A)) : list A :=
  match o with Some l => l | None => [] end.

(** ** Data model *)

(** A search result ([doc]) of the Open Library response.  Favorites are
    objects of the same shape with fewer properties set. *)
Record Book : Type := mkBook {
  key : string;
  title : option string;
  author_name : option (list string);
  first_publish_year : option Z;
  cover_i : option Z;
  isbn : option (list string);
  cover_edition_key : option string;
  edition_count : option Z;
  subject : option (list string)
}.

(** The body of a search response, [data] in [fetchBooks]. *)
Record Data : Type := mkData {
  data_numFound : option Z;
  data_docs : option (list Book)
}.

(** The values of the sort selector: ["relevance"], ["year-asc"],
    ["year-desc"]. *)
Inductive SortMode : Type := Relevance | YearAsc | YearDesc.

Definition SortMode_eqb (a b : SortMode) : bool :=
  match a, b with
  | Relevance, Relevance | YearAsc, YearAsc | YearDesc, YearDesc => true
  | _, _ => false
  end.

(** ** [coverFor] *)

Definition coverFor (doc : Book) (size : string) : option string :=
  match truthy_num (cover_i doc) with
  | Some id =>
      Some ("https://covers.openlibrary.org/b/id/"
              ++ string_of_Z id ++ "-" ++ size ++ ".jpg")%string
  | None =>
      match isbn doc with
      | Some (first :: _) =>
          Some ("https://covers.openlibrary.org/b/isbn/"
                  ++ first ++ "-" ++ size ++ ".jpg")%string
      | _ =>
          match truthy_str (cover_edition_key doc) with
          | Some olid =>
              Some ("https://covers.openlibrary.org/b/olid/"
                      ++ olid ++ "-" ++ size ++ ".jpg")%string
          | None => None
          end
      end
  end.

(** ** Favorites and recent searches *)

(** The object literal built by [toggleFavorite]: five properties copied
    from [book], the others absent. *)
Definition favoriteEntry (book : Book) : Book :=
  {| key := key book;
     title := title book;
     author_name := author_name book;
     first_publish_year := first_publish_year book;
     cover_i := cover_i book;
     isbn := None;
     cover_edition_key := None;
     edition_count := None;
     subject := None |}.

(** The updater passed to [setFavorites] by [toggleFavorite]. *)
Definition toggleFavorite (book : Book) (prev : list Book) : list Book :=
  match find (fun b => (key b =? key book)%string) prev with
  | Some _ => filter (fun b => negb (key b =? key book)%string) prev
  | None => favoriteEntry book :: prev
  end.

(** The updater passed to [setRecent] after a successful search:
    [[searchTerm, ...prev.filter(x => x !== searchTerm)].slice(0, 8)]. *)
Definition recordRecent (searchTerm : string) (prev : list string) : list string :=
  firstn 8 (searchTerm :: filter (fun x => negb (x =? searchTerm)%string) prev).

(** ** Sorting *)

(** [Array.prototype.sort(comparefn)] is a stable sort: with a consistent
    comparator its result is the one stable sorted arrangement of the
    array (see [js_sort_unique] below), so any stable algorithm computes
    it.  Insertion from the right is used here. *)
Section Sort.
Context {A : Type}.
Variable comparefn : A -> A -> Z.

Fixpoint insert (x : A) (l : list A) : list A :=
  match l with
  | [] => [x]
  | y :: l' => if comparefn x y <=? 0 then x :: l else y :: insert x l'
  end.

Definition js_sort (l : list A) : list A := fold_right insert [] l.
End Sort.

(** [a.first_publish_year || 0] *)
Definition year_or_0 (b : Book) : Z := num_or (first_publish_year b) 0.

Definition year_asc (a b : Book) : Z := year_or_0 a - year_or_0 b.
Definition year_desc (a b : Book) : Z := year_or_0 b - year_or_0 a.

(** The value bound to [docs] after the two [if]s of [fetchBooks]. *)
Definition sortDocs (sortBy : SortMode) (docs : list Book) : list Book :=
  match sortBy with
  | YearAsc => js_sort year_asc docs
  | YearDesc => js_sort year_desc docs
  | Relevance => docs
  end.

(** *** Arrays as heap objects

    [[...docs]] allocates a fresh array with the elements of [docs], and
    [a.sort(comparefn)] sorts the array object [a] in place and returns
    [a] itself.  A heap of arrays makes the difference between the two
    objects visible. *)
Module Arrays.
Section Heap.
Context {A : Type}.

Definition Ref : Type := nat.
Definition Heap : Type := list (list A).

Definition deref (h : Heap) (r : Ref) : list A := nth r h [].

Fixpoint store (h : Heap) (r : Ref) (v : list A) : Heap :=
  match h, r with
  | [], _ => []
  | _ :: h', O => v :: h'
  | a :: h', S r' => a :: store h' r' v
  end.

(** [[...a]] *)
Definition spread (h : Heap) (a : Ref) : Heap * Ref :=
  ((h ++ [deref h a])%list, List.length h).

(** [a.sort(comparefn)] *)
Definition sort (comparefn : A -> A -> Z) (h : Heap) (a : Ref) : Heap * Ref :=
  (store h a (js_sort comparefn (deref h a)), a).

End Heap.
End Arrays.

(** The two [if]s of [fetchBooks] on the heap: [docs] is rebound to the
    sorted copy, or left bound to the array of the response. *)
Definition sortDocs_heap (sortBy : SortMode) (h : Arrays.Heap) (docs : Arrays.Ref)
  : Arrays.Heap * Arrays.Ref :=
  match sortBy with
  | YearAsc => let (h1, copy) := Arrays.spread h docs in Arrays.sort year_asc h1 copy
  | YearDesc => let (h1, copy) := Arrays.spread h docs in Arrays.sort year_desc h1 copy
  | Relevance => (h, docs)
  end.

(** ** The component state and its environment *)

(** [localStorage]: the parsed values under the keys ["bf_favs"] and
    ["bf_recent"]; [None] when the key is absent or does not parse. *)
Record Storage : Type := mkStorage {
  bf_favs : option (list Book);
  bf_recent : option (list string)
}.

(** How far one run of [fetchBooks] has got. *)
Inductive Phase : Type :=
| AwaitFetch   (* suspended at [await fetch(url, ...)] *)
| AwaitJson    (* suspended at [await res.json()] *)
| Settled.     (* ran to the end of its [finally] *)

(** One run of [fetchBooks]: the request it sent, the values its closure
    captured, and the state of its [AbortController]. *)
Record Call : Type := mkCall {
  call_term : string;
  call_page : Z;
  call_limit : Z;
  call_sortBy : SortMode;
  call_aborted : bool;
  call_phase : Phase
}.

(** The [useState] variables of [BookFinder], followed by what the
    component holds outside React state. *)
Record State : Type := mkState {
  (* the text of the search box *)
  query : string;
  (* the term the fetch effect searches for *)
  searchTerm : string;
  searchTrigger : Z;
  results : list Book;
  loading : bool;
  error : option string;
  page : Z;
  numFound : Z;
  sortBy : SortMode;
  favorites : list Book;
  recent : list string;
  (* outside React state *)
  (* the pending timeout behind [debounceRef.current], if any:
      the time it is due and the [query] its callback closed over *)
  debounceRef : option (N * string);
  (* the clock, in milliseconds *)
  now : N;
  (* every [fetch] issued so far, oldest first *)
  calls : list Call;
  (* the cleanup returned by the last run of the fetch effect: the
      index in [calls] of the call its [AbortController] belongs to *)
  controller : option nat;
  (* [localStorage] *)
  storage : Storage
}.

(** Functional updates of one field. *)
Definition set_query (v : string) (s : State) : State :=
  mkState v (searchTerm s) (searchTrigger s) (results s) (loading s)
    (error s) (page s) (numFound s) (sortBy s) (favorites s) (recent s)
    (debounceRef s) (now s) (calls s) (controller s) (storage s).

Definition set_searchTerm (v : string) (s : State) : State :=
  mkState (query s) v (searchTrigger s) (results s) (loading s) (error s)
    (page s) (numFound s) (sortBy s) (favorites s) (recent s)
    (debounceRef s) (now s) (calls s) (controller s) (storage s).

Definition set_searchTrigger (v : Z) (s : State) : State :=
  mkState (query s) (searchTerm s) v (results s) (loading s) (error s)
    (page s) (numFound s) (sortBy s) (favorites s) (recent s)
    (debounceRef s) (now s) (calls s) (controller s) (storage s).

Definition set_results (v : list Book) (s : State) : State :=
  mkState (query s) (searchTerm s) (searchTrigger s) v (loading s) (error s)
    (page s) (numFound s) (sortBy s) (favorites s) (recent s)
    (debounceRef s) (now s) (calls s) (controller s) (storage s).

Definition set_loading (v : bool) (s : State) : State :=
  mkState (query s) (searchTerm s) (searchTrigger s) (results s) v (error s)
    (page s) (numFound s) (sortBy s) (favorites s) (recent s)
    (debounceRef s) (now s) (calls s) (controller s) (storage s).

Definition set_error (v : option string) (s : State) : State :=
  mkState (query s) (searchTerm s) (searchTrigger s) (results s) (loading s)
    v (page s) (numFound s) (sortBy s) (favorites s) (recent s)
    (debounceRef s) (now s) (calls s) (controller s) (storage s).

Definition set_page (v : Z) (s : State) : State :=
  mkState (query s) (searchTerm s) (searchTrigger s) (results s) (loading s)
    (error s) v (numFound s) (sortBy s) (favorites s) (recent s)
    (debounceRef s) (now s) (calls s) (controller s) (storage s).

Definition set_numFound (v : Z) (s : State) : State :=
  mkState (query s) (searchTerm s) (searchTrigger s) (results s) (loading s)
    (error s) (page s) v (sortBy s) (favorites s) (recent s) (debounceRef s)
    (now s) (calls s) (controller s) (storage s).

Definition set_sortBy (v : SortMode) (s : State) : State :=
  mkState (query s) (searchTerm s) (searchTrigger s) (results s) (loading s)
    (error s) (page s) (numFound s) v (favorites s) (recent s)
    (debounceRef s) (now s) (calls s) (controller s) (storage s).

Definition set_favorites (v : list Book) (s : State) : State :=
  mkState (query s) (searchTerm s) (searchTrigger s) (results s) (loading s)
    (error s) (page s) (numFound s) (sortBy s) v (recent s) (debounceRef s)
    (now s) (calls s) (controller s) (storage s).

Definition set_recent (v : list string) (s : State) : State :=
  mkState (query s) (searchTerm s) (searchTrigger s) (results s) (loading s)
    (error s) (page s) (numFound s) (sortBy s) (favorites s) v
    (debounceRef s) (now s) (calls s) (controller s) (storage s).

Definition set_debounceRef (v : option (N * string)) (s : State) : State :=
  mkState (query s) (searchTerm s) (searchTrigger s) (results s) (loading s)
    (error s) (page s) (numFound s) (sortBy s) (favorites s) (recent s) v
    (now s) (calls s) (controller s) (storage s).

Definition set_now (v : N) (s : State) : State :=
  mkState (query s) (searchTerm s) (searchTrigger s) (results s) (loading s)
    (error s) (page s) (numFound s) (sortBy s) (favorites s) (recent s)
    (debounceRef s) v (calls s) (controller s) (storage s).

Definition set_calls (v : list Call) (s : State) : State :=
  mkState (query s) (searchTerm s) (searchTrigger s) (results s) (loading s)
    (error s) (page s) (numFound s) (sortBy s) (favorites s) (recent s)
    (debounceRef s) (now s) v (controller s) (storage s).

Definition set_controller (v : option nat) (s : State) : State :=
  mkState (query s) (searchTerm s) (searchTrigger s) (results s) (loading s)
    (error s) (page s) (numFound s) (sortBy s) (favorites s) (recent s)
    (debounceRef s) (now s) (calls s) v (storage s).

Definition set_storage (v : Storage) (s : State) : State :=
  mkState (query s) (searchTerm s) (searchTrigger s) (results s) (loading s)
    (error s) (page s) (numFound s) (sortBy s) (favorites s) (recent s)
    (debounceRef s) (now s) (calls s) (controller s) v.

(** ** The two effects

    React runs an effect after a render in which one of its dependencies
    changed (compared with [Object.is]): first the cleanup its previous run
    returned, then its body.  State set inside an effect is applied by the
    next render; none of it is a dependency of either effect, so no effect
    runs again because of it.

    The state updates made by one handler, one timeout callback or one
    resumption of [fetchBooks] are batched into a single render (React 18
    and later).  A promise that is settled while an effect runs resumes its
    [await] in a microtask, after the effects of that render. *)

Definition RESULTS_PER_PAGE : Z := 20.

(** The debounce effect, dependencies [[query]].  The cleanup of the
    previous run and the first statement of the body both clear the
    pending timeout; the body then either schedules a new one, whose
    callback closes over the [query] of this render, or clears the results. *)
Definition debounceEffect (s : State) : State :=
  let s := set_debounceRef None s in
  if nonempty (trim (query s)) then
    set_debounceRef (Some ((now s + 450)%N, query s)) s
  else
    set_error None (set_numFound 0 (set_results [] s)).

(** The callback of the timeout, for the [query] it closed over. *)
Definition debounceCallback (captured : string) (s : State) : State :=
  set_searchTrigger (searchTrigger s + 1)
    (set_searchTerm (trim captured) (set_page 1 s)).

(** [l] with [f] applied to its element at index [i]. *)
Fixpoint update {A : Type} (i : nat) (f : A -> A) (l : list A) : list A :=
  match l, i with
  | [], _ => []
  | x :: l', O => f x :: l'
  | x :: l', S i' => x :: update i' f l'
  end.

Definition set_call_phase (p : Phase) (c : Call) : Call :=
  mkCall (call_term c) (call_page c) (call_limit c) (call_sortBy c)
    (call_aborted c) p.

Definition set_call_aborted (b : bool) (c : Call) : Call :=
  mkCall (call_term c) (call_page c) (call_limit c) (call_sortBy c)
    b (call_phase c).

(** Is call [i] suspended at one of its two [await]s? *)
Definition pending (s : State) (i : nat) : bool :=
  match nth_error (calls s) i with
  | Some c => match call_phase c with Settled => false | _ => true end
  | None => false
  end.

(** [controller.abort()] for the controller of call [i].  The signal is
    marked aborted; if the call is suspended at [fetch] or at [res.json()],
    that promise is rejected with an [AbortError], and the call resumes in
    its [catch] as a microtask, that is after the effect that is running. *)
Definition abort (i : nat) (s : State) : State :=
  set_calls
    (update i (fun c => set_call_phase Settled (set_call_aborted true c)) (calls s))
    s.

(** What a call rejected with an [AbortError] does when it resumes: the
    [catch] skips [setError], the [finally] runs [setLoading(false)]. *)
Definition resumeAborted (s : State) : State := set_loading false s.

(** The cleanup returned by the fetch effect: [() => controller.abort()]. *)
Definition cleanup (s : State) : State :=
  match controller s with Some i => abort i s | None => s end.

(** The fetch effect, dependencies
    [[searchTerm, page, sortBy, searchTrigger]]: the cleanup of the previous
    run, the body, and then the microtask of the call the cleanup aborted,
    if it was still suspended. *)
Definition fetchEffect (s : State) : State :=
  let wasPending :=
    match controller s with Some i => pending s i | None => false end in
  let s := cleanup s in
  let s :=
    if nonempty (searchTerm s) then
      let call := mkCall (searchTerm s) (page s) RESULTS_PER_PAGE (sortBy s)
                    false AwaitFetch in
      set_controller (Some (List.length (calls s)))
        (set_calls (calls s ++ [call])%list
           (set_error None (set_loading true s)))
    else
      set_controller None
        (set_error None (set_numFound 0 (set_results [] s))) in
  if wasPending then resumeAborted s else s.

(** A render that takes the state from [old] to [new], followed by the
    effects whose dependencies changed, in the order of their declaration. *)
Definition commit (old new : State) : State :=
  let s := if (query old =? query new)%string then new else debounceEffect new in
  if (searchTerm old =? searchTerm new)%string
     && (page old =? page new)
     && SortMode_eqb (sortBy old) (sortBy new)
     && (searchTrigger old =? searchTrigger new)
  then s else fetchEffect s.

(** ** Handlers *)

Definition set_bf_favs (v : option (list Book)) (st : Storage) : Storage :=
  mkStorage v (bf_recent st).

Definition set_bf_recent (v : option (list string)) (st : Storage) : Storage :=
  mkStorage (bf_favs st) v.

(** [setFavorites(prev => ...)] of [toggleFavorite], with the
    [localStorage.setItem] inside the updater. *)
Definition toggle (book : Book) (s : State) : State :=
  let updatedFavorites := toggleFavorite book (favorites s) in
  set_favorites updatedFavorites
    (set_storage (set_bf_favs (Some updatedFavorites) (storage s)) s).

Definition clearFavorites (s : State) : State :=
  set_storage (set_bf_favs None (storage s)) (set_favorites [] s).

Definition clearRecent (s : State) : State :=
  set_storage (set_bf_recent None (storage s)) (set_recent [] s).

(** [setRecent(prev => ...)] of [fetchBooks], with the
    [localStorage.setItem] inside the updater. *)
Definition record (term : string) (s : State) : State :=
  let updated := recordRecent term (recent s) in
  set_recent updated
    (set_storage (set_bf_recent (Some updated) (storage s)) s).

Definition useRecent (term : string) (s : State) : State :=
  set_searchTrigger (searchTrigger s + 1)
    (set_page 1 (set_searchTerm term (set_query term s))).

(** [Math.ceil(numFound / RESULTS_PER_PAGE)] *)
Definition pageCount (s : State) : Z := - ((- numFound s) / RESULTS_PER_PAGE).

Definition nextPage (s : State) : State :=
  if page s <? pageCount s then set_page (page s + 1) s else s.

Definition prevPage (s : State) : State :=
  if 1 <? page s then set_page (page s - 1) s else s.

(** The [onClick] of the Search button, which is disabled while
    [query.trim()] is empty. *)
Definition clickSearch (s : State) : State :=
  if nonempty (trim (query s)) then
    set_searchTrigger (searchTrigger s + 1)
      (set_page 1 (set_searchTerm (trim (query s)) s))
  else s.

(** The [onClick] of the Clear button next to the search box. *)
Definition clickClear (s : State) : State :=
  set_error None
    (set_numFound 0 (set_results [] (set_searchTerm "" (set_query "" s)))).

(** [dt] milliseconds pass; a timeout that has become due runs. *)
Definition elapse (dt : N) (s : State) : State :=
  let s := set_now (now s + dt)%N s in
  match debounceRef s with
  | Some (due, captured) =>
      if (due <=? now s)%N
      then debounceCallback captured (set_debounceRef None s)
      else s
  | None => s
  end.

(** *** Resuming [fetchBooks] *)

Definition Phase_eqb (a b : Phase) : bool :=
  match a, b with
  | AwaitFetch, AwaitFetch | AwaitJson, AwaitJson | Settled, Settled => true
  | _, _ => false
  end.

(** Call [i] resumes with [k] if it is suspended at [at_]; a result for a
    call that is not waiting for it is dropped. *)
Definition resume (i : nat) (at_ : Phase) (k : Call -> State -> State)
    (s : State) : State :=
  match nth_error (calls s) i with
  | Some c => if Phase_eqb (call_phase c) at_ then k c s else s
  | None => s
  end.

(** The [finally] block. *)
Definition finally (i : nat) (s : State) : State :=
  set_loading false
    (set_calls (update i (set_call_phase Settled) (calls s)) s).

(** The [catch] block for an error that is not an [AbortError]:
    [setError(err.message || "Failed to fetch books")]. *)
Definition catch (message : option string) (s : State) : State :=
  set_error (Some (str_or message "Failed to fetch books")) s.

(** [res.ok] *)
Definition ok (status : Z) : bool := (200 <=? status) && (status <=? 299).

(** [fetch] resolved with a response of the given status. *)
Definition fetchResolved (i : nat) (status : Z) : State -> State :=
  resume i AwaitFetch (fun _ s =>
    if ok status then
      set_calls (update i (set_call_phase AwaitJson) (calls s)) s
    else
      finally i (catch (Some ("Server error: " ++ string_of_Z status)%string) s)).

(** [fetch] rejected (a network failure). *)
Definition fetchRejected (i : nat) (message : option string) : State -> State :=
  resume i AwaitFetch (fun _ s => finally i (catch message s)).

(** [res.json()] resolved with [data]: the rest of the [try] block. *)
Definition jsonResolved (i : nat) (data : Data) : State -> State :=
  resume i AwaitJson (fun c s =>
    let s := set_numFound (num_or (data_numFound data) 0) s in
    let docs := sortDocs (call_sortBy c) (list_or_empty (data_docs data)) in
    let s := set_results docs s in
    let s := record (call_term c) s in
    finally i s).

(** [res.json()] rejected (the body is not JSON). *)
Definition jsonRejected (i : nat) (message : option string) : State -> State :=
  resume i AwaitJson (fun _ s => finally i (catch message s)).

(** *** A body of another shape

    [res.json()] resolves with whatever the body parses to.  [jsonResolved]
    is the case of a body of the documented shape.  In a [Body], [docs] may
    also be a truthy value that cannot be spread, such as [{}] or [7]. *)
Inductive Docs : Type :=
| DocsOf (docs : option (list Book))   (* missing, or an array of books *)
| NotIterable.                         (* truthy and not iterable *)

Record Body : Type := mkBody {
  body_numFound : option Z;
  body_docs : Docs
}.

(** [res.json()] resolved with [body]: the rest of the [try] block, the
    [catch] and the [finally].  Under a sort by year, [[...docs]] throws a
    [TypeError] for a value that is not iterable, after [setNumFound] has
    run; [thrown] is the message the engine gives that error.  Under
    Relevance the value is stored by [setResults(docs)]: [results] is then
    no array and the state is outside [State], which is [None] here. *)
Definition bodyResolved (i : nat) (body : Body) (thrown : option string)
    (s : State) : option State :=
  match nth_error (calls s) i with
  | Some c =>
      if Phase_eqb (call_phase c) AwaitJson then
        let s := set_numFound (num_or (body_numFound body) 0) s in
        match body_docs body with
        | DocsOf docs =>
            let docs := sortDocs (call_sortBy c) (list_or_empty docs) in
            let s := set_results docs s in
            let s := record (call_term c) s in
            Some (finally i s)
        | NotIterable =>
            match call_sortBy c with
            | Relevance => None
            | YearAsc | YearDesc => Some (finally i (catch thrown s))
            end
        end
      else Some s
  | None => Some s
  end.

(** ** The transition system *)

Inductive Event : Type :=
| Input (value : string)
| ClickSearch
| ClickClear
| UseRecent (term : string)
| SelectSort (value : SortMode)
| NextPage
| PrevPage
| ToggleFavorite (book : Book)
| ClearFavorites
| ClearRecent
| Elapse (dt : N)
| FetchResolved (i : nat) (status : Z)
| FetchRejected (i : nat) (message : option string)
| JsonResolved (i : nat) (data : Data)
| JsonRejected (i : nat) (message : option string).

(** The state updates an event makes before React renders again. *)
Definition handle (e : Event) (s : State) : State :=
  match e with
  | Input value => set_query value s
  | ClickSearch => clickSearch s
  | ClickClear => clickClear s
  | UseRecent term =>
      (* the chips are rendered from [recent] *)
      if existsb (String.eqb term) (recent s) then useRecent term s else s
  | SelectSort value => set_sortBy value s
  | NextPage => nextPage s
  | PrevPage => prevPage s
  | ToggleFavorite book => toggle book s
  | ClearFavorites => clearFavorites s
  | ClearRecent => clearRecent s
  | Elapse dt => elapse dt s
  | FetchResolved i status => fetchResolved i status s
  | FetchRejected i message => fetchRejected i message s
  | JsonResolved i data => jsonResolved i data s
  | JsonRejected i message => jsonRejected i message s
  end.

(** One event: its state updates are batched into one render, after which
    the effects run. *)
Definition step (s : State) (e : Event) : State := commit s (handle e s).

Definition run (s : State) (events : list Event) : State :=
  fold_left step events s.

(** The state after mounting, with [favorites] and [recent] read from
    [localStorage] ([JSON.parse(... || "[]")], or [[]] when that throws). *)
Definition init (st : Storage) : State :=
  {| query := ""; searchTerm := ""; searchTrigger := 0; results := [];
     loading := false; error := None; page := 1; numFound := 0;
     sortBy := Relevance;
     favorites := list_or_empty (bf_favs st);
     recent := list_or_empty (bf_recent st);
     debounceRef := None; now := 0%N; calls := []; controller := None;
     storage := st |}.

(** The step of a body of any shape: the state updates of [bodyResolved]
    are batched into one render, after which the effects run. *)
Definition step_body (s : State) (i : nat) (body : Body) (thrown : option string)
  : option State :=
  option_map (commit s) (bodyResolved i body thrown s).

(** ** The timeouts of the browser

    In [State] the field [debounceRef] is the one timeout that
    [debounceRef.current] refers to.  The browser itself keeps every
    timeout that was set and has neither run nor been cleared, whether the
    component still holds its id or not, and runs each of them when it is
    due.  Here the timeouts of the browser are explicit,
    [debounceRef.current] is the id of a timeout, and [setTimeout] and
    [clearTimeout] are the operations of the browser.  The field
    [debounceRef] of the component state is not used; [as_state] below
    computes it. *)
Record Timeout : Type := mkTimeout {
  timeout_id : positive;
  timeout_due : N;
  (* the [query] the callback closed over *)
  timeout_query : string
}.

Record Tab : Type := mkTab {
  component : State;
  (* the timeouts that are set, oldest first *)
  timeouts : list Timeout;
  (* [debounceRef.current]: [null], or the id the last [setTimeout] returned *)
  current : option positive;
  (* the id the next [setTimeout] returns *)
  next_id : positive
}.

Definition with_component (c : State) (b : Tab) : Tab :=
  mkTab c (timeouts b) (current b) (next_id b).

(** [clearTimeout(id)]: the timeout with that id, if it is still set, is
    dropped. *)
Definition clearTimeout (id : positive) (b : Tab) : Tab :=
  mkTab (component b)
    (filter (fun t => negb (timeout_id t =? id)%positive) (timeouts b))
    (current b) (next_id b).

(** [if (debounceRef.current) clearTimeout(debounceRef.current)]; an id is
    a positive number, hence truthy. *)
Definition clearCurrent (b : Tab) : Tab :=
  match current b with
  | Some id => clearTimeout id b
  | None => b
  end.

(** [debounceRef.current = setTimeout(() => {...}, delay)], the callback
    closing over the [query] of this render. *)
Definition setTimeout (delay : N) (b : Tab) : Tab :=
  mkTab (component b)
    (timeouts b
       ++ [mkTimeout (next_id b) (now (component b) + delay)%N
             (query (component b))])%list
    (Some (next_id b)) (Pos.succ (next_id b)).

(** The debounce effect: the cleanup of its previous run, then its body. *)
Definition tab_debounceEffect (b : Tab) : Tab :=
  (* the cleanup returned by the previous run *)
  let b := clearCurrent b in
  (* the first statement of the body *)
  let b := clearCurrent b in
  if nonempty (trim (query (component b))) then
    setTimeout 450 b
  else
    with_component
      (set_error None (set_numFound 0 (set_results [] (component b)))) b.

(** A render that takes the component from [old] to the state of [b],
    followed by the effects whose dependencies changed. *)
Definition tab_commit (old : State) (b : Tab) : Tab :=
  let new := component b in
  let b := if (query old =? query new)%string then b else tab_debounceEffect b in
  if (searchTerm old =? searchTerm new)%string
     && (page old =? page new)
     && SortMode_eqb (sortBy old) (sortBy new)
     && (searchTrigger old =? searchTrigger new)
  then b else with_component (fetchEffect (component b)) b.

(** The callback of the timeout [t] runs, React renders and the effects
    run. *)
Definition fire (b : Tab) (t : Timeout) : Tab :=
  tab_commit (component b)
    (with_component (debounceCallback (timeout_query t) (component b)) b).

Definition is_due (clock : N) (t : Timeout) : bool := (timeout_due t <=? clock)%N.

(** [dt] milliseconds pass: the timeouts that have become due leave the
    list of the browser and run, in the order they were set (which is the
    order they are due in, every delay being the same). *)
Definition tab_elapse (dt : N) (b : Tab) : Tab :=
  let clock := (now (component b) + dt)%N in
  fold_left fire (filter (is_due clock) (timeouts b))
    (mkTab (set_now clock (component b))
       (filter (fun t => negb (is_due clock t)) (timeouts b))
       (current b) (next_id b)).

Definition tab_step (b : Tab) (e : Event) : Tab :=
  match e with
  | Elapse dt => tab_elapse dt b
  | _ => tab_commit (component b) (with_component (handle e (component b)) b)
  end.

Definition tab_run (b : Tab) (events : list Event) : Tab :=
  fold_left tab_step events b.

(** After mounting no timeout is set: the debounce effect has run once,
    with an empty [query]. *)
Definition tab_init (st : Storage) : Tab := mkTab (init st) [] None 1%positive.

(** The timeout that [debounceRef.current] refers to, if it is still set. *)
Definition slot (b : Tab) : option (N * string) :=
  match current b with
  | Some id =>
      option_map (fun t => (timeout_due t, timeout_query t))
        (find (fun t => (timeout_id t =? id)%positive) (timeouts b))
  | None => None
  end.

(** The component state of [b], with the timeout of [debounceRef.current]
    in the field [debounceRef]. *)
Definition as_state (b : Tab) : State := set_debounceRef (slot b) (component b).

(** ** Vocabulary of the properties *)

(** *** Cover images *)

(** The three kinds of cover URL. *)
Definition id_url (id : Z) (size : string) : string :=
  "https://covers.openlibrary.org/b/id/" ++ string_of_Z id ++ "-" ++ size ++ ".jpg".
Definition isbn_url (isbn size : string) : string :=
  "https://covers.openlibrary.org/b/isbn/" ++ isbn ++ "-" ++ size ++ ".jpg".
Definition olid_url (olid size : string) : string :=
  "https://covers.openlibrary.org/b/olid/" ++ olid ++ "-" ++ size ++ ".jpg".

(** *** Favorites *)

(** Is a book with the key of [book] among [favs]? *)
Definition isFavorite (book : Book) (favs : list Book) : bool :=
  existsb (fun b => (key b =? key book)%string) favs.

(** *** Sorting *)

(** [l'] is a stable sort of [l]: a rearrangement of [l] that is ordered by
    [le] and keeps the elements of each [key] in the order they have in [l]. *)
Definition stable_sort_of {A : Type} (le : A -> A -> Prop) (key : A -> Z)
    (l l' : list A) : Prop :=
  Permutation l l'
  /\ StronglySorted le l'
  /\ forall k, filter (fun a => key a =? k) l' = filter (fun a => key a =? k) l.




(** *** Blank strings *)

(** [trim] on the code units of a string. *)
Definition trim_chars (l : list ascii) : list ascii :=
  rev (trimStart_chars (rev (trimStart_chars l))).

(** A list of code units that does not start with white space. *)
Definition clean (l : list ascii) : Prop :=
  match l with [] => True | c :: _ => is_white_space c = false end.

(** A term that is not blank. *)
Definition nonblank (t : string) : bool := nonempty (trim t).

(** *** Responses *)

(** Is [e] the settlement of a promise that call [i] awaits? *)
Definition response_of (i : nat) (e : Event) : bool :=
  match e with
  | FetchResolved j _ | FetchRejected j _ | JsonResolved j _ | JsonRejected j _ =>
      (i =? j)%nat
  | _ => false
  end.

(** Does the response event [e] report a failure of the remote call? *)
Definition is_failure (e : Event) : bool :=
  match e with
  | FetchResolved _ status => negb (ok status)
  | FetchRejected _ _ | JsonRejected _ _ => true
  | _ => false
  end.

(** Is the call that [e] answers suspended at the [await] that [e] settles? *)
Definition awaited (s : State) (e : Event) : bool :=
  let at_ (i : nat) (p : Phase) :=
    match nth_error (calls s) i with
    | Some c => Phase_eqb (call_phase c) p
    | None => false
    end in
  match e with
  | FetchResolved i _ | FetchRejected i _ => at_ i AwaitFetch
  | JsonResolved i _ | JsonRejected i _ => at_ i AwaitJson
  | _ => false
  end.

(** *** Typing *)

(** Typing into the search box: a first value, then further values, each
    [gap] milliseconds after the one before. *)
Definition typing (first : string) (more : list (N * string)) : list Event :=
  Input first :: flat_map (fun gv => [Elapse (fst gv); Input (snd gv)]) more.




(** At most one timeout is set, and it is the one that
    [debounceRef.current] refers to. *)
Definition one_timeout (b : Tab) : Prop :=
  timeouts b = []
  \/ exists t, timeouts b = [t] /\ current b = Some (timeout_id t).

(** *** Invariants of the transition system *)

(** The calls are sequenced: the controller held by the fetch effect, if
    any, is that of the call issued last, and every other call has been
    aborted and has run to its end. *)
Definition sequenced (s : State) : Prop :=
  (forall i, controller s = Some i -> S i = List.length (calls s))
  /\ (forall i c, nth_error (calls s) i = Some c -> controller s <> Some i ->
      call_aborted c = true /\ call_phase c = Settled).

(** Two records of the same request. *)
Definition same_request (c c' : Call) : Prop :=
  call_term c' = call_term c /\ call_page c' = call_page c
  /\ call_sortBy c' = call_sortBy c.

(** The call the controller belongs to was issued for the current term,
    page and sort order. *)
Definition live_call_current (s : State) : Prop :=
  forall i c, controller s = Some i -> nth_error (calls s) i = Some c ->
  call_term c = searchTerm s /\ call_page c = page s
  /\ call_sortBy c = sortBy s.

(** No term the component may search for is blank: the recent searches,
    the committed term unless it is empty, the value a pending timeout will
    commit, and the terms of the calls. *)
Definition terms_nonblank (s : State) : Prop :=
  forallb nonblank (recent s) = true
  /\ (searchTerm s = "" \/ nonblank (searchTerm s) = true)
  /\ (forall due captured,
        debounceRef s = Some (due, captured) -> nonblank captured = true)
  /\ Forall (fun c => nonblank (call_term c) = true) (calls s).

(** ** Sample data *)

Definition dune : Book :=
  mkBook "/works/OL893415W" (Some "Dune") (Some ["Frank Herbert"]) (Some 1965)
    (Some 11481354) (Some ["0441013597"; "9780441013593"]) (Some "OL26242482M")
    (Some 120) None.

Definition no_isbn : Book :=
  mkBook "/works/OL1W" (Some "Untitled") None None None (Some []) (Some "OL7M")
    None None.

Definition favA : Book :=
  mkBook "/works/OL1A" (Some "A") None (Some 1965) None None None None None.

Definition favB : Book :=
  mkBook "/works/OL2B" (Some "B") None (Some 2000) None None None None None.

Definition favC : Book :=
  mkBook "/works/OL3C" (Some "C") None None None None None None None.

Definition favD : Book :=
  mkBook "/works/OL4D" (Some "D") None (Some 2000) None None None None None.

(** A heap with one array, the [docs] of a response. *)
Definition response_heap : Arrays.Heap := [[favA; favB; favC; favD]].

Definition empty_storage : Storage := mkStorage None None.

(** The user has typed ["dune"] and paused: the first call is in flight. *)
Definition searching : State :=
  run (init empty_storage) [Input "dune"; Elapse 450].

(** While that call is in flight the user picks another sort order. *)
Definition resorted : State :=
  run (init empty_storage) [Input "dune"; Elapse 450; SelectSort YearAsc].

(** The first call has delivered two books. *)
Definition found : State :=
  run searching
    [FetchResolved 0 200; JsonResolved 0 (mkData (Some 2) (Some [favA; favB]))].

(** With the two books on display the user picks another sort order: a
    second call is in flight. *)
Definition refetching : State := step found (SelectSort YearDesc).

(** Typing ["d"], ["du"], ["dune "] quickly. *)
Definition quick_typing : list (N * string) := [(100%N, "du"); (120%N, "dune ")].

(** ** The view

    The expressions of the JSX that compute what is shown.  The star of a
    result, [favorites.some(f => f.key === doc.key)], is [isFavorite]. *)

(** [subject.length > 20 ? subject.substring(0, 20) + '...' : subject] *)
Definition subjectLabel (subject : string) : string :=
  if (20 <? String.length subject)%nat
  then substring 0 20 subject ++ "..."
  else subject.

(** The chips under "Subjects:": rendered when
    [doc.subject && doc.subject.length > 0], from [doc.subject.slice(0, 3)]. *)
Definition subjectChips (doc : Book) : list string :=
  match subject doc with
  | Some (first :: rest) => map subjectLabel (firstn 3 (first :: rest))
  | _ => []
  end.

(** [(doc.author_name || ['Unknown author']).slice(0, 2).join(', ')]: the
    author line of a result.  An array, even an empty one, is truthy. *)
Definition authorsLine (doc : Book) : string :=
  String.concat ", "
    (firstn 2 (match author_name doc with
               | Some names => names
               | None => ["Unknown author"]
               end)).

(** [fav.author_name?.slice(0, 1).join(', ') || 'Unknown']: the author line
    of a favorite in the side panel. *)
Definition favAuthorsPanel (fav : Book) : string :=
  str_or (option_map (fun names => String.concat ", " (firstn 1 names))
            (author_name fav))
    "Unknown".

(** [fav.author_name?.slice(0, 2).join(', ') || 'Unknown author']: the
    author line of a favorite in the drawer. *)
Definition favAuthorsDrawer (fav : Book) : string :=
  str_or (option_map (fun names => String.concat ", " (firstn 2 names))
            (author_name fav))
    "Unknown author".

(** The cover of a favorite, in the panel ([size] S) and in the drawer
    ([size] M): [fav.cover_i ? `.../b/id/${fav.cover_i}-${size}.jpg`]
    and a placeholder otherwise. *)
Definition favCover (fav : Book) (size : string) : option string :=
  match truthy_num (cover_i fav) with
  | Some id =>
      Some ("https://covers.openlibrary.org/b/id/"
              ++ string_of_Z id ++ "-" ++ size ++ ".jpg")%string
  | None => None
  end.

(** *** The theme

    [darkMode] is a state variable of its own, read from ["bf_darkMode"]
    (a stored boolean; [false] when the key is absent or does not parse),
    with an effect that adds the class [dark] to the document element or
    removes it. *)
Record Theme : Type := mkTheme {
  darkMode : bool;
  html_dark : bool;              (* the document element has the class [dark] *)
  bf_darkMode : option bool      (* [localStorage] under ["bf_darkMode"] *)
}.

(** The effect with dependencies [[darkMode]]. *)
Definition darkModeEffect (t : Theme) : Theme :=
  mkTheme (darkMode t) (if darkMode t then true else false) (bf_darkMode t).

(** [toggleDarkMode]: the updater writes the new mode to storage. *)
Definition toggleDarkMode (t : Theme) : Theme :=
  let newMode := negb (darkMode t) in
  mkTheme newMode (html_dark t) (Some newMode).

(** A click on the theme button, with the effect that follows the render. *)
Definition theme_click (t : Theme) : Theme := darkModeEffect (toggleDarkMode t).

(** The theme after mounting; [html] tells whether the document element
    had the class before. *)
Definition theme_init (stored : option bool) (html : bool) : Theme :=
  darkModeEffect
    (mkTheme (match stored with Some b => b | None => false end) html stored).

(** *** Further vocabulary *)

(** The request a call sent. *)
Definition request (c : Call) : string * Z * Z * SortMode :=
  (call_term c, call_page c, call_limit c, call_sortBy c).

(** Does the response event [e] end the call it answers?  Every response
    does, but a [fetch] resolved with a 2xx status. *)
Definition settles (e : Event) : bool :=
  match e with
  | FetchResolved _ status => negb (ok status)
  | FetchRejected _ _ | JsonResolved _ _ | JsonRejected _ _ => true
  | _ => false
  end.

(** The page is a page number, and so is the page of every call; every
    call asks for [RESULTS_PER_PAGE] results. *)
Definition paged (s : State) : Prop :=
  1 <= page s
  /\ Forall (fun c => 1 <= call_page c /\ call_limit c = RESULTS_PER_PAGE) (calls s).

(** The two lists in memory are the ones in storage. *)
Definition lists_persisted (s : State) : Prop :=
  favorites s = list_or_empty (bf_favs (storage s))
  /\ recent s = list_or_empty (bf_recent (storage s)).

(** [loading] is true only while the call of the controller is in flight. *)
Definition loading_in_flight (s : State) : Prop :=
  loading s = true -> exists i, controller s = Some i /\ pending s i = true.

(** A pending timeout is for the text in the search box, which is not
    blank, and is due within the debounce delay. *)
Definition timeout_current (s : State) : Prop :=
  forall due captured, debounceRef s = Some (due, captured) ->
  captured = query s /\ trim captured <> ""
  /\ (now s < due)%N /\ (due <= now s + 450)%N.

(** The fetch effect holds a controller exactly when there is a term. *)
Definition controller_iff_term (s : State) : Prop :=
  controller s = None <-> searchTerm s = "".

(** An error message is not empty. *)
Definition error_nonempty (s : State) : Prop :=
  forall message, error s = Some message -> message <> "".

(** ** More sample data *)

(** A first page of 45 matches is on display. *)
Definition found_many : State :=
  run searching
    [FetchResolved 0 200; JsonResolved 0 (mkData (Some 45) (Some [favA; favB]))].

(** The user has typed ["dune"]; the timeout is pending. *)
Definition typed : State := run (init empty_storage) [Input "dune"; Elapse 100].

(** A store with two favorites and two recent searches. *)
Definition used_storage : Storage :=
  mkStorage (Some [favA; favB]) (Some ["dune"; "emma"]).

(** With the two books on display and the second call in flight, the
    response of the second call has arrived and its body is being read. *)
Definition reading_body : State := step refetching (FetchResolved 1 200).

(** A body that parses, with a count and with [docs] an object: the text
    [{"numFound": 5, "docs": {}}]. *)
Definition unsortable_body : Body := mkBody (Some 5) NotIterable.

(** ** Proof steps *)

(** Case analysis on the scrutinee of a [match] or [if] of the goal. *)
Ltac break_match :=
  match goal with
  | |- context [match ?x with _ => _ end] => destruct x eqn:?
  end.

Ltac by_cases := repeat (simpl; try reflexivity; try break_match).

(** * Properties *)

(** ** Cover images *)

(** C9.  [coverFor] is a function of the three cover sources of the book
    and the size alone, and it takes the first available source in the order
    cover id, first ISBN, cover edition key: a cover id (present and not 0)
    gives the id URL; otherwise a non-empty ISBN list gives the URL of its
    first element; otherwise a cover edition key (present and not empty)
    gives the olid URL; otherwise, in particular when all three are absent,
    the result is none. *)
Theorem coverFor_precedence : forall (doc : Book) (size : string),
  (forall id, truthy_num (cover_i doc) = Some id ->
     coverFor doc size = Some (id_url id size))
  /\ (truthy_num (cover_i doc) = None ->
      forall first rest, isbn doc = Some (first :: rest) ->
      coverFor doc size = Some (isbn_url first size))
  /\ (truthy_num (cover_i doc) = None ->
      isbn doc = None \/ isbn doc = Some [] ->
      forall olid, truthy_str (cover_edition_key doc) = Some olid ->
      coverFor doc size = Some (olid_url olid size))
  /\ (truthy_num (cover_i doc) = None ->
      isbn doc = None \/ isbn doc = Some [] ->
      truthy_str (cover_edition_key doc) = None ->
      coverFor doc size = None)
  /\ (cover_i doc = None -> isbn doc = None -> cover_edition_key doc = None ->
      coverFor doc size = None)
  /\ (forall doc', cover_i doc' = cover_i doc -> isbn doc' = isbn doc ->
      cover_edition_key doc' = cover_edition_key doc ->
      coverFor doc' size = coverFor doc size).
Proof.
  intros doc size. unfold coverFor, id_url, isbn_url, olid_url.
  repeat split.
  - intros id H. now rewrite H.
  - intros H first rest Hi. now rewrite H, Hi.
  - intros H [Hi | Hi] olid Ho; now rewrite H, Hi, Ho.
  - intros H [Hi | Hi] Ho; now rewrite H, Hi, Ho.
  - intros H Hi Ho. now rewrite H, Hi, Ho.
  - intros doc' H Hi Ho. now rewrite H, Hi, Ho.
Qed.

Lemma coverFor_precedence_witness :
  coverFor dune "M" = Some "https://covers.openlibrary.org/b/id/11481354-M.jpg".
Proof.
  exact (proj1 (coverFor_precedence dune "M") 11481354 eq_refl).
Defined.

(** C10.  With no usable cover id and an ISBN list that is present but
    empty, [coverFor] does not build an ISBN URL: the result is the olid URL
    of the cover edition key when there is one, and none otherwise. *)
Theorem coverFor_empty_isbn : forall (doc : Book) (size : string),
  truthy_num (cover_i doc) = None ->
  isbn doc = Some [] ->
  coverFor doc size =
    match truthy_str (cover_edition_key doc) with
    | Some olid => Some (olid_url olid size)
    | None => None
    end
  /\ (forall url, coverFor doc size = Some url ->
      prefix "https://covers.openlibrary.org/b/isbn/" url = false).
Proof.
  intros doc size H Hi. unfold coverFor. rewrite H, Hi.
  split; [reflexivity |].
  intros url. destruct (truthy_str (cover_edition_key doc)); [| discriminate].
  intros [= <-]. reflexivity.
Qed.

Lemma coverFor_empty_isbn_witness :
  coverFor no_isbn "M" = Some "https://covers.openlibrary.org/b/olid/OL7M-M.jpg".
Proof.
  exact (proj1 (coverFor_empty_isbn no_isbn "M" eq_refl eq_refl)).
Defined.

(** ** Favorites *)

Section Lists.
Context {A : Type}.

Lemma filter_all (p : A -> bool) (l : list A) :
  (forall x, In x l -> p x = true) -> filter p l = l.
Proof.
  induction l as [| x l IH]; simpl; intros H; [reflexivity |].
  rewrite (H x (or_introl eq_refl)), IH; auto.
Qed.

Lemma In_firstn (n : nat) (l : list A) (x : A) : In x (firstn n l) -> In x l.
Proof.
  revert l. induction n as [| n IH]; intros [| y l]; simpl; try tauto.
  intros [-> | H]; auto.
Qed.

Lemma find_existsb (p : A -> bool) (l : list A) :
  existsb p l = match find p l with Some _ => true | None => false end.
Proof.
  induction l as [| x l IH]; simpl; [reflexivity |].
  destruct (p x); simpl; auto.
Qed.

End Lists.

Lemma toggleFavorite_absent (book : Book) (favs : list Book) :
  isFavorite book favs = false -> toggleFavorite book favs = favoriteEntry book :: favs.
Proof.
  unfold isFavorite, toggleFavorite. rewrite find_existsb.
  now destruct (find _ favs).
Qed.

Lemma toggleFavorite_present (book : Book) (favs : list Book) :
  isFavorite book favs = true ->
  toggleFavorite book favs = filter (fun b => negb (key b =? key book)%string) favs.
Proof.
  unfold isFavorite, toggleFavorite. rewrite find_existsb.
  now destruct (find _ favs).
Qed.

Lemma isFavorite_filter (book : Book) (favs : list Book) :
  isFavorite book (filter (fun b => negb (key b =? key book)%string) favs) = false.
Proof.
  unfold isFavorite. induction favs as [| b favs IH]; simpl; [reflexivity |].
  destruct (key b =? key book)%string eqn:E; simpl; [exact IH |].
  now rewrite E.
Qed.

Lemma filter_absent (book : Book) (favs : list Book) :
  isFavorite book favs = false ->
  filter (fun b => negb (key b =? key book)%string) favs = favs.
Proof.
  unfold isFavorite. induction favs as [| b favs IH]; simpl; [reflexivity |].
  intros H. apply orb_false_iff in H as [E H]. rewrite E. simpl. now rewrite IH.
Qed.

(** C3, as it holds.  When no favorite has the id of the book, toggling
    twice gives back the list as it was, order included.  When a favorite has
    that id, toggling twice gives the entry projected from the book followed
    by the other favorites in their order: the favorite moves to the front
    (and carries the fields of the book it was toggled with). *)
Theorem toggleFavorite_twice : forall (book : Book) (favs : list Book),
  (isFavorite book favs = false ->
     toggleFavorite book (toggleFavorite book favs) = favs)
  /\ (isFavorite book favs = true ->
      toggleFavorite book (toggleFavorite book favs) =
        favoriteEntry book
          :: filter (fun b => negb (key b =? key book)%string) favs).
Proof.
  intros book favs. split; intros H.
  - rewrite (toggleFavorite_absent _ _ H).
    rewrite toggleFavorite_present.
    + simpl. rewrite String.eqb_refl. simpl. now apply filter_absent.
    + unfold isFavorite. simpl. now rewrite String.eqb_refl.
  - rewrite (toggleFavorite_present _ _ H).
    apply toggleFavorite_absent, isFavorite_filter.
Qed.

Lemma toggleFavorite_twice_witness :
  toggleFavorite favB (toggleFavorite favB [favA]) = [favA]
  /\ toggleFavorite favB (toggleFavorite favB [favA; favB]) = [favB; favA].
Proof.
  split.
  - exact (proj1 (toggleFavorite_twice favB [favA]) eq_refl).
  - exact (proj2 (toggleFavorite_twice favB [favA; favB]) eq_refl).
Defined.

(** C3, as stated, fails: with favorites [[A; B]], toggling [B] twice gives
    [[B; A]]. *)
Lemma toggleFavorite_twice_reorders :
  toggleFavorite favB (toggleFavorite favB [favA; favB]) = [favB; favA]
  /\ toggleFavorite favB (toggleFavorite favB [favA; favB]) <> [favA; favB].
Proof.
  split; [reflexivity | discriminate].
Qed.

(** ** Recent searches *)

Lemma remove_filter (term : string) (l : list string) :
  filter (fun x => negb (x =? term)%string) l = remove string_dec term l.
Proof.
  induction l as [| x l IH]; simpl; [reflexivity |].
  destruct (string_dec term x) as [<- | N].
  - now rewrite String.eqb_refl.
  - apply not_eq_sym, String.eqb_neq in N. rewrite N. simpl. now f_equal.
Qed.

Lemma recordRecent_cons (term : string) (prev : list string) :
  recordRecent term prev =
    term :: firstn 7 (filter (fun x => negb (x =? term)%string) prev).
Proof. reflexivity. Qed.

Lemma not_In_others (term : string) (prev : list string) (n : nat) :
  ~ In term (firstn n (filter (fun x => negb (x =? term)%string) prev)).
Proof.
  intros H. apply In_firstn, filter_In in H as [_ H].
  now rewrite String.eqb_refl in H.
Qed.

Lemma recordRecent_idempotent (term : string) (prev : list string) :
  recordRecent term (recordRecent term prev) = recordRecent term prev.
Proof.
  rewrite !recordRecent_cons. f_equal.
  set (others := firstn 7 (filter _ prev)).
  assert (E : filter (fun x => negb (x =? term)%string) (term :: others)
              = others).
  { simpl. rewrite String.eqb_refl. simpl. apply filter_all.
    intros x Hx. apply In_firstn, filter_In in Hx. tauto. }
  rewrite E. unfold others. now rewrite firstn_firstn.
Qed.

(** C7.  Recording a term puts it at the front, followed by the earlier
    terms other than it (compared as strings, so case matters) in their
    order, cut so that the list has at most 8 entries; the list is written
    to storage under ["bf_recent"]; the term occurs once; and recording the
    same term again changes nothing. *)
Theorem record_recent : forall (term : string) (s : State),
  recent (record term s) =
    firstn 8 (term :: remove string_dec term (recent s))
  /\ hd_error (recent (record term s)) = Some term
  /\ count_occ string_dec (recent (record term s)) term = 1%nat
  /\ (List.length (recent (record term s)) <= 8)%nat
  /\ bf_recent (storage (record term s)) = Some (recent (record term s))
  /\ record term (record term s) = record term s.
Proof.
  intros term s.
  assert (R : recent (record term s) = recordRecent term (recent s))
    by reflexivity.
  rewrite R.
  repeat split.
  - unfold recordRecent. now rewrite remove_filter.
  - rewrite recordRecent_cons.
    set (others := firstn 7 _).
    assert (H : ~ In term others) by apply not_In_others.
    simpl. destruct (string_dec term term) as [_ | N]; [| now elim N].
    f_equal. now apply count_occ_not_In.
  - apply firstn_le_length.
  - unfold record at 1. rewrite R.
    assert (S : storage (record term s)
                = set_bf_recent (Some (recordRecent term (recent s))) (storage s))
      by reflexivity.
    rewrite S, recordRecent_idempotent.
    destruct s as [? ? ? ? ? ? ? ? ? ? ? ? ? ? ? [? ?]]; reflexivity.
Qed.

(** ** Sorting *)

Section SortFacts.
Context {A : Type}.
Variable key : A -> Z.
Variable comparefn : A -> A -> Z.
Hypothesis comparefn_key : forall a b, comparefn a b = key a - key b.

Let le (a b : A) : Prop := key a <= key b.

Lemma insert_perm (x : A) (l : list A) :
  Permutation (x :: l) (insert comparefn x l).
Proof.
  induction l as [| y l IH]; simpl; [reflexivity |].
  destruct (comparefn x y <=? 0); [reflexivity |].
  rewrite perm_swap. now apply perm_skip.
Qed.

Lemma insert_sorted (x : A) (l : list A) :
  StronglySorted le l -> StronglySorted le (insert comparefn x l).
Proof.
  induction 1 as [| y l Hs IH Hy]; simpl.
  - repeat constructor.
  - rewrite comparefn_key. destruct (key x - key y <=? 0) eqn:E.
    + apply Z.leb_le in E. constructor; [now constructor |].
      constructor; [unfold le; lia |].
      eapply Forall_impl; [| exact Hy]. unfold le. intros; lia.
    + apply Z.leb_gt in E. constructor; [exact IH |].
      eapply Permutation_Forall; [apply insert_perm |].
      constructor; [unfold le; lia | exact Hy].
Qed.

Lemma insert_filter (x : A) (l : list A) (k : Z) :
  filter (fun a => key a =? k) (insert comparefn x l)
  = filter (fun a => key a =? k) (x :: l).
Proof.
  induction l as [| y l IH]; [reflexivity |].
  simpl insert. rewrite comparefn_key.
  destruct (key x - key y <=? 0) eqn:E; [reflexivity |].
  apply Z.leb_gt in E. simpl in *. rewrite IH.
  destruct (key x =? k) eqn:Ex, (key y =? k) eqn:Ey; try reflexivity.
  apply Z.eqb_eq in Ex, Ey. lia.
Qed.

Lemma js_sort_stable (l : list A) : stable_sort_of le key l (js_sort comparefn l).
Proof.
  repeat split.
  - induction l as [| x l IH]; simpl; [constructor |].
    now rewrite <- insert_perm, <- IH.
  - induction l as [| x l IH]; simpl; [constructor |].
    now apply insert_sorted.
  - intros k. induction l as [| x l IH]; simpl; [reflexivity |].
    rewrite insert_filter. simpl. now rewrite IH.
Qed.

Lemma filter_key_In (l : list A) (x : A) :
  In x l -> In x (filter (fun a => key a =? key x) l).
Proof. intros H. apply filter_In. split; [exact H | apply Z.eqb_refl]. Qed.

Lemma sorted_stable_eq (l1 l2 : list A) :
  StronglySorted le l1 -> StronglySorted le l2 ->
  (forall k, filter (fun a => key a =? k) l1 = filter (fun a => key a =? k) l2) ->
  l1 = l2.
Proof.
  intros S1. revert l2.
  induction S1 as [| x l1 S1 IH H1]; intros l2 S2 E.
  - destruct l2 as [| y l2]; [reflexivity |].
    specialize (E (key y)). simpl in E. now rewrite Z.eqb_refl in E.
  - destruct S2 as [| y l2 S2 H2].
    + specialize (E (key x)). simpl in E. now rewrite Z.eqb_refl in E.
    + assert (Hyx : key y <= key x).
      { assert (I : In x (y :: l2)).
        { pose proof (filter_key_In (x :: l1) x (or_introl eq_refl)) as I.
          rewrite E in I. now apply filter_In in I. }
        destruct I as [-> | I]; [lia |].
        rewrite Forall_forall in H2. exact (H2 _ I). }
      assert (Hxy : key x <= key y).
      { assert (I : In y (x :: l1)).
        { pose proof (filter_key_In (y :: l2) y (or_introl eq_refl)) as I.
          rewrite <- E in I. now apply filter_In in I. }
        destruct I as [-> | I]; [lia |].
        rewrite Forall_forall in H1. exact (H1 _ I). }
      assert (K : key x = key y) by lia.
      pose proof (E (key x)) as Ex. simpl in Ex.
      rewrite <- K, Z.eqb_refl in Ex. injection Ex as -> Et.
      f_equal. apply IH; [exact S2 |].
      intros k. specialize (E k). simpl in E.
      destruct (key y =? k) eqn:Ek; [| exact E].
      apply Z.eqb_eq in Ek. subst k. exact Et.
Qed.

(** The stable sort of a list is unique, so [js_sort] is the result of
    any implementation of [Array.prototype.sort]. *)
Lemma js_sort_unique (l l' : list A) :
  stable_sort_of le key l l' -> l' = js_sort comparefn l.
Proof.
  intros (_ & S & F). destruct (js_sort_stable l) as (_ & S' & F').
  apply sorted_stable_eq; [exact S | exact S' |].
  intros k. now rewrite F, F'.
Qed.

End SortFacts.



Section HeapFacts.
Context {A : Type}.
Implicit Types (h : @Arrays.Heap A) (r : Arrays.Ref) (v : list A).






End HeapFacts.





(** The sample response, newest first: the books of 2000 stay in the order
    of the response, and the book without a year comes last. *)
Example response_newest_first :
  Arrays.deref (fst (sortDocs_heap YearDesc response_heap 0%nat))
    (snd (sortDocs_heap YearDesc response_heap 0%nat))
  = [favB; favD; favA; favC].
Proof. reflexivity. Qed.

(** ** The transition system: basic facts *)

Section Update.
Context {A : Type}.
Implicit Types (f : A -> A) (l : list A).

Lemma length_update i f l : List.length (update i f l) = List.length l.
Proof.
  revert i. induction l as [| x l IH]; intros [| i]; simpl; auto.
Qed.

Lemma nth_error_update_same i f l :
  nth_error (update i f l) i = option_map f (nth_error l i).
Proof.
  revert i. induction l as [| x l IH]; intros [| i]; simpl; auto.
Qed.

Lemma nth_error_update_other i j f l :
  i <> j -> nth_error (update i f l) j = nth_error l j.
Proof.
  revert i j. induction l as [| x l IH]; intros [| i] [| j] H; simpl; auto.
  congruence.
Qed.

End Update.

Lemma SortMode_eqb_refl (m : SortMode) : SortMode_eqb m m = true.
Proof. now destruct m. Qed.

Lemma SortMode_eqb_eq (a b : SortMode) : SortMode_eqb a b = true -> a = b.
Proof. now destruct a, b. Qed.

(** A render that changes no dependency runs no effect. *)
Lemma commit_same_deps (old new : State) :
  query new = query old -> searchTerm new = searchTerm old ->
  page new = page old -> sortBy new = sortBy old ->
  searchTrigger new = searchTrigger old ->
  commit old new = new.
Proof.
  intros Hq Ht Hp Hs Hg. unfold commit.
  now rewrite Hq, Ht, Hp, Hs, Hg, !String.eqb_refl, !Z.eqb_refl, SortMode_eqb_refl.
Qed.

Lemma commit_refl (s : State) : commit s s = s.
Proof. now apply commit_same_deps. Qed.

Lemma str_or_nonempty (o : option string) (d : string) :
  d <> "" -> str_or o d <> "".
Proof.
  intros Hd. unfold str_or, truthy_str, nonempty.
  destruct o as [m |]; [| exact Hd].
  destruct (m =? "")%string eqn:E; simpl; [exact Hd |].
  now apply String.eqb_neq.
Qed.

Lemma Phase_eqb_eq (a b : Phase) : Phase_eqb a b = true -> a = b.
Proof. now destruct a, b. Qed.

(** ** Failures of the remote call *)

(** X30.  When a call that is waiting for its response fails before a
    body has been parsed (the request is rejected, the status is not 2xx, or
    the body does not parse), [error] becomes a non-empty message,
    [loading] becomes false, and [results] and [numFound] keep their
    values. *)
Theorem failure_before_body : forall (s : State) (e : Event),
  awaited s e = true -> is_failure e = true ->
  (exists message, error (step s e) = Some message /\ message <> "")
  /\ loading (step s e) = false
  /\ results (step s e) = results s
  /\ numFound (step s e) = numFound s.
Proof.
  intros s e Ha Hf. unfold step.
  destruct e; try discriminate; simpl in Ha, Hf; simpl handle;
    unfold fetchResolved, fetchRejected, jsonRejected, resume;
    destruct (nth_error (calls s) i) as [c |]; try discriminate;
    rewrite Ha; try (rewrite (negb_true_iff _) in Hf; rewrite Hf);
    rewrite commit_same_deps by reflexivity; simpl;
    (split; [eexists; split; [reflexivity |] | auto]).
  - unfold str_or. simpl. discriminate.
  - now apply str_or_nonempty.
  - now apply str_or_nonempty.
Qed.

Lemma failure_before_body_witness :
  (exists message,
     error (step refetching (FetchRejected 1 (Some "Failed to fetch"))) = Some message
     /\ message <> "")
  /\ loading (step refetching (FetchRejected 1 (Some "Failed to fetch"))) = false
  /\ results (step refetching (FetchRejected 1 (Some "Failed to fetch")))
     = results refetching
  /\ numFound (step refetching (FetchRejected 1 (Some "Failed to fetch")))
     = numFound refetching.
Proof.
  apply (failure_before_body refetching (FetchRejected 1 (Some "Failed to fetch")));
    vm_compute; reflexivity.
Defined.

(** ** What the effects and handlers leave alone *)


Lemma debounceEffect_nonblank (s : State) :
  trim (query s) <> "" ->
  debounceEffect s = set_debounceRef (Some ((now s + 450)%N, query s)) s.
Proof.
  intros H. unfold debounceEffect, nonempty. simpl.
  apply String.eqb_neq in H. rewrite H. now destruct s.
Qed.

Lemma query_fetchEffect (s : State) : query (fetchEffect s) = query s.
Proof. unfold fetchEffect, cleanup, abort, resumeAborted. by_cases. Qed.

Lemma debounceRef_fetchEffect (s : State) :
  debounceRef (fetchEffect s) = debounceRef s.
Proof. unfold fetchEffect, cleanup, abort, resumeAborted. by_cases. Qed.

Lemma query_debounceEffect (s : State) : query (debounceEffect s) = query s.
Proof. unfold debounceEffect. by_cases. Qed.

Lemma query_commit (old new : State) : query (commit old new) = query new.
Proof.
  unfold commit.
  repeat break_match;
    rewrite ?query_fetchEffect, ?query_debounceEffect; reflexivity.
Qed.

(** With no search term the fetch effect clears the results and issues no
    call. *)
Lemma fetchEffect_no_term (s : State) :
  searchTerm s = "" ->
  results (fetchEffect s) = [] /\ numFound (fetchEffect s) = 0
  /\ error (fetchEffect s) = None
  /\ List.length (calls (fetchEffect s)) = List.length (calls s).
Proof.
  intros H. unfold fetchEffect, cleanup, abort, resumeAborted.
  destruct (controller s) as [i |]; simpl; rewrite H; simpl;
    try destruct (pending s i); simpl; rewrite ?length_update; auto.
Qed.


(** ** [trim] *)

Lemma trimStart_clean (l : list ascii) : clean (trimStart_chars l).
Proof.
  induction l as [| c l IH]; simpl; [exact I |].
  destruct (is_white_space c) eqn:E; [exact IH | exact E].
Qed.

Lemma trimStart_id (l : list ascii) : clean l -> trimStart_chars l = l.
Proof. destruct l as [| c l]; simpl; [reflexivity |]. now intros ->. Qed.

Lemma trimStart_suffix (l : list ascii) :
  exists p, l = (p ++ trimStart_chars l)%list.
Proof.
  induction l as [| c l [p IH]]; simpl; [now exists [] |].
  destruct (is_white_space c).
  - exists (c :: p). simpl. now f_equal.
  - now exists [].
Qed.

Lemma clean_app_l (l1 l2 : list ascii) :
  l1 <> [] -> clean (l1 ++ l2) -> clean l1.
Proof. now destruct l1. Qed.

Lemma trim_chars_idempotent (l : list ascii) :
  trim_chars (trim_chars l) = trim_chars l.
Proof.
  unfold trim_chars.
  set (m := trimStart_chars l).
  assert (Cm : clean m) by apply trimStart_clean.
  set (r := trimStart_chars (rev m)).
  assert (Cr : clean r) by apply trimStart_clean.
  assert (C : clean (rev r)).
  { destruct (trimStart_suffix (rev m)) as [p Hp]. fold r in Hp.
    apply (f_equal (@rev ascii)) in Hp.
    rewrite rev_involutive, rev_app_distr in Hp.
    destruct r as [| c r'] eqn:Er; [exact I |].
    apply clean_app_l with (rev p); [| now rewrite <- Hp].
    simpl. now destruct (rev r'). }
  rewrite (trimStart_id _ C), rev_involutive. now rewrite (trimStart_id _ Cr).
Qed.

(** Trimming a trimmed string changes nothing. *)
Lemma trim_idempotent (s : string) : trim (trim s) = trim s.
Proof.
  unfold trim. rewrite list_ascii_of_string_of_list_ascii.
  fold (trim_chars (list_ascii_of_string s)).
  fold (trim_chars (trim_chars (list_ascii_of_string s))).
  now rewrite trim_chars_idempotent.
Qed.

Lemma nonblank_trim (t : string) : nonblank (trim t) = nonblank t.
Proof. unfold nonblank. now rewrite trim_idempotent. Qed.

Lemma nonblank_nonempty (t : string) : nonblank t = true -> nonempty t = true.
Proof.
  unfold nonblank, nonempty. destruct (t =? "")%string eqn:E; [| reflexivity].
  apply String.eqb_eq in E. now subst.
Qed.

(** ** Emptying the search box *)




(** ** The debounce on the component state *)











Example quick_typing_commits_dune :
  searchTerm (run (init empty_storage) (typing "d" quick_typing ++ [Elapse 450]))
  = "dune"
  /\ List.length
       (calls (run (init empty_storage) (typing "d" quick_typing ++ [Elapse 450])))
     = 1%nat.
Proof. vm_compute. split; reflexivity. Qed.

(** ** The calls are sequenced *)

Lemma sequenced_same_net (s t : State) :
  calls t = calls s -> controller t = controller s ->
  sequenced s -> sequenced t.
Proof. unfold sequenced. intros -> ->. auto. Qed.

(** A call that has not run to its end is the one the controller belongs
    to. *)
Lemma sequenced_pending (s : State) (i : nat) (c : Call) :
  sequenced s -> nth_error (calls s) i = Some c -> call_phase c <> Settled ->
  controller s = Some i.
Proof.
  intros [_ H] Hc Hp.
  destruct (controller s) as [j |] eqn:E.
  - destruct (Nat.eq_dec j i) as [-> | N]; [reflexivity |].
    destruct (H i c Hc) as [_ F]; congruence.
  - destruct (H i c Hc) as [_ F]; congruence.
Qed.

Lemma sequenced_update_phase (s t : State) (i : nat) (c : Call) (p : Phase) :
  sequenced s -> nth_error (calls s) i = Some c -> call_phase c <> Settled ->
  calls t = update i (set_call_phase p) (calls s) ->
  controller t = controller s ->
  sequenced t.
Proof.
  intros Hs Hc Hp Ec Ek.
  pose proof (sequenced_pending s i c Hs Hc Hp) as K.
  destruct Hs as [H1 H2]. split.
  - intros j Hj. rewrite Ec, length_update. apply H1. congruence.
  - intros j d Hd Hj. rewrite Ek, K in Hj.
    rewrite Ec, nth_error_update_other in Hd by congruence.
    apply (H2 j d Hd). congruence.
Qed.

Lemma sequenced_resume (s : State) (i : nat) (p : Phase)
    (k : Call -> State -> State) :
  p <> Settled ->
  (forall c s, exists q, calls (k c s) = update i (set_call_phase q) (calls s)
                         /\ controller (k c s) = controller s) ->
  sequenced s -> sequenced (resume i p k s).
Proof.
  intros Hp Hk Hs. unfold resume.
  destruct (nth_error (calls s) i) as [c |] eqn:Hc; [| exact Hs].
  destruct (Phase_eqb (call_phase c) p) eqn:E; [| exact Hs].
  apply Phase_eqb_eq in E.
  destruct (Hk c s) as (q & Ec & Ek).
  eapply sequenced_update_phase; eauto. congruence.
Qed.

Lemma sequenced_handle (e : Event) (s : State) :
  sequenced s -> sequenced (handle e s).
Proof.
  intros Hs.
  destruct e; simpl;
    try (apply sequenced_same_net with s; [| | exact Hs];
         unfold clickSearch, nextPage, prevPage, elapse, debounceCallback;
         by_cases; fail);
    apply sequenced_resume; try discriminate; try exact Hs;
    intros c t; unfold finally, catch, record; by_cases; eexists; simpl; eauto.
Qed.

Lemma sequenced_debounceEffect (s : State) :
  sequenced s -> sequenced (debounceEffect s).
Proof.
  apply sequenced_same_net; unfold debounceEffect; by_cases.
Qed.

(** After the cleanup every call has been aborted and has run to its end. *)
Lemma cleanup_settles (s : State) (j : nat) (c : Call) :
  sequenced s -> nth_error (calls (cleanup s)) j = Some c ->
  call_aborted c = true /\ call_phase c = Settled.
Proof.
  intros [_ H] Hc. unfold cleanup in Hc.
  destruct (controller s) as [i |] eqn:E.
  - simpl in Hc. destruct (Nat.eq_dec i j) as [-> | N].
    + rewrite nth_error_update_same in Hc.
      destruct (nth_error (calls s) j); [| discriminate].
      injection Hc as <-. auto.
    + rewrite nth_error_update_other in Hc by exact N.
      apply (H j c Hc). congruence.
  - apply (H j c Hc). congruence.
Qed.

Lemma length_cleanup (s : State) :
  List.length (calls (cleanup s)) = List.length (calls s).
Proof.
  unfold cleanup. destruct (controller s); simpl; now rewrite ?length_update.
Qed.

Lemma fetchEffect_net (s : State) :
  (nonempty (searchTerm s) = true
   /\ calls (fetchEffect s)
      = (calls (cleanup s)
          ++ [mkCall (searchTerm s) (page s) RESULTS_PER_PAGE (sortBy s)
                false AwaitFetch])%list
   /\ controller (fetchEffect s) = Some (List.length (calls s)))
  \/ (nonempty (searchTerm s) = false
      /\ calls (fetchEffect s) = calls (cleanup s)
      /\ controller (fetchEffect s) = None).
Proof.
  pose proof (length_cleanup s) as L. revert L.
  unfold fetchEffect, cleanup, abort, resumeAborted.
  destruct (controller s) as [i |]; simpl;
    destruct (nonempty (searchTerm s)); simpl; intros L;
    try destruct (pending s i); simpl; rewrite ?L; auto.
Qed.

Lemma sequenced_fetchEffect (s : State) :
  sequenced s -> sequenced (fetchEffect s).
Proof.
  intros Hs. pose proof (length_cleanup s) as L.
  destruct (fetchEffect_net s) as [(_ & Ec & Ek) | (_ & Ec & Ek)];
    split; rewrite Ec, Ek.
  - intros i [= <-]. rewrite length_app, L. simpl. lia.
  - intros j c Hc Hj.
    assert (B : (j < List.length (calls (cleanup s)))%nat).
    { assert (N : j <> List.length (calls s)) by congruence.
      assert (B : nth_error
                    (calls (cleanup s)
                      ++ [mkCall (searchTerm s) (page s) RESULTS_PER_PAGE
                            (sortBy s) false AwaitFetch]) j <> None)
        by congruence.
      apply nth_error_Some in B. rewrite length_app in B. simpl in B. lia. }
    rewrite nth_error_app1 in Hc by exact B.
    now apply cleanup_settles with s j.
  - discriminate.
  - intros j c Hc _. now apply cleanup_settles with s j.
Qed.

Lemma sequenced_commit (old new : State) :
  sequenced new -> sequenced (commit old new).
Proof.
  intros H. unfold commit.
  repeat break_match; auto using sequenced_fetchEffect, sequenced_debounceEffect.
Qed.

Lemma sequenced_step (s : State) (e : Event) :
  sequenced s -> sequenced (step s e).
Proof. intros H. now apply sequenced_commit, sequenced_handle. Qed.

Lemma sequenced_run (events : list Event) (s : State) :
  sequenced s -> sequenced (run s events).
Proof.
  revert s. induction events as [| e events IH]; intros s H; [exact H |].
  apply IH. now apply sequenced_step.
Qed.

Lemma sequenced_init (st : Storage) : sequenced (init st).
Proof.
  split; [discriminate |]. now intros [| i] c H.
Qed.

(** In a sequenced state, every call but the last has been aborted and
    has run to its end, and a response for such a call changes nothing. *)
Lemma sequenced_latest (s : State) :
  sequenced s ->
  (forall i c, nth_error (calls s) i = Some c ->
     (S i < List.length (calls s))%nat ->
     call_aborted c = true /\ call_phase c = Settled)
  /\ (forall i e, response_of i e = true -> S i <> List.length (calls s) ->
      step s e = s).
Proof.
  intros Hs.
  assert (Old : forall i c, nth_error (calls s) i = Some c ->
                  S i <> List.length (calls s) ->
                  call_aborted c = true /\ call_phase c = Settled).
  { intros i c Hc Hi. destruct Hs as [H1 H2]. apply (H2 i c Hc).
    intros K. apply H1 in K. lia. }
  split.
  - intros i c Hc Hi. apply (Old i c Hc). lia.
  - intros i e He Hi. unfold step.
    assert (H : handle e s = s).
    { destruct e; try discriminate; simpl in He; apply Nat.eqb_eq in He;
        subst i0; simpl;
        unfold fetchResolved, fetchRejected, jsonResolved, jsonRejected, resume;
        destruct (nth_error (calls s) i) as [c |] eqn:Hc; try reflexivity;
        destruct (Old i c Hc Hi) as [_ ->]; reflexivity. }
    rewrite H. apply commit_refl.
Qed.

(** ** A superseded call and [loading] *)

(** Whenever the fetch effect runs again while its previous call is in
    flight and there is a term to search for, the new call is in flight and
    [loading] is false: the [finally] of the aborted call ran after the
    [setLoading(true)] of the new one. *)
Lemma superseded_call_clears_loading (s : State) (i : nat) :
  controller s = Some i -> pending s i = true ->
  nonempty (searchTerm s) = true ->
  loading (fetchEffect s) = false
  /\ pending (fetchEffect s) (List.length (calls s)) = true.
Proof.
  intros Hc Hp Ht. unfold fetchEffect, cleanup. rewrite Hc, Hp. simpl.
  rewrite Ht. split; [reflexivity |].
  unfold pending, resumeAborted. simpl.
  rewrite <- (length_update i
    (fun c => set_call_phase Settled (set_call_aborted true c)) (calls s)).
  now rewrite nth_error_app2, Nat.sub_diag by lia.
Qed.

(** C2, on the code.  A search for ["dune"] is in flight and [loading] is
    true.  The user picks another sort order: the first call is aborted, a
    second call is issued and is in flight, and [loading] is false, set by
    the [finally] of the aborted call; [results], [error] and [recent] are
    left alone.  When the first call has finished before the sort order
    changes, no aborted call resumes and [loading] stays true while the
    second call is in flight. *)
Theorem aborted_call_sets_loading :
  loading searching = true
  /\ pending searching 0 = true
  /\ option_map call_aborted (nth_error (calls resorted) 0) = Some true
  /\ pending resorted 1 = true
  /\ loading resorted = false
  /\ results resorted = results searching
  /\ error resorted = None
  /\ recent resorted = recent searching
  /\ (pending refetching 1 = true /\ loading refetching = true).
Proof. vm_compute. repeat split. Qed.

(** ** A successful response *)

Lemma step_JsonResolved (s : State) (i : nat) (c : Call) (data : Data) :
  nth_error (calls s) i = Some c -> call_phase c = AwaitJson ->
  step s (JsonResolved i data)
  = finally i
      (record (call_term c)
         (set_results (sortDocs (call_sortBy c) (list_or_empty (data_docs data)))
            (set_numFound (num_or (data_numFound data) 0) s))).
Proof.
  intros Hc Hp. unfold step. simpl. unfold jsonResolved, resume.
  rewrite Hc, Hp. simpl. now apply commit_same_deps.
Qed.

(** The scenario of the specification: the term ["dune"], a response with
    the books of 1965 and 2000, newest first. *)
Example dune_newest_first :
  let s := run (init empty_storage)
             [SelectSort YearDesc; Input "dune"; Elapse 450;
              FetchResolved 0 200;
              JsonResolved 0 (mkData (Some 2) (Some [favA; favB]))] in
  results s = [favB; favA] /\ numFound s = 2 /\ loading s = false
  /\ recent s = ["dune"].
Proof. vm_compute. repeat split. Qed.

(** ** No blank term is ever searched for *)

Lemma Forall_update {A : Type} (P : A -> Prop) (f : A -> A) (i : nat) (l : list A) :
  (forall x, P x -> P (f x)) -> Forall P l -> Forall P (update i f l).
Proof.
  intros Hf H. revert i. induction H as [| x l Hx H IH]; intros [| i]; simpl;
    constructor; auto.
Qed.

Lemma forallb_recordRecent (term : string) (prev : list string) :
  nonblank term = true -> forallb nonblank prev = true ->
  forallb nonblank (recordRecent term prev) = true.
Proof.
  intros Ht Hp. apply forallb_forall. intros x Hx.
  apply In_firstn in Hx. destruct Hx as [<- | Hx]; [exact Ht |].
  apply filter_In in Hx as [Hx _].
  rewrite forallb_forall in Hp. now apply Hp.
Qed.

Lemma terms_nonblank_resume (s : State) (i : nat) (p : Phase)
    (k : Call -> State -> State) :
  (forall c s, nonblank (call_term c) = true -> terms_nonblank s ->
     terms_nonblank (k c s)) ->
  terms_nonblank s -> terms_nonblank (resume i p k s).
Proof.
  intros Hk Hs. unfold resume.
  destruct (nth_error (calls s) i) as [c |] eqn:Hc; [| exact Hs].
  destruct (Phase_eqb (call_phase c) p); [| exact Hs].
  apply Hk; [| exact Hs].
  destruct Hs as (_ & _ & _ & F). rewrite Forall_forall in F.
  apply F. eapply nth_error_In; eauto.
Qed.

Lemma terms_nonblank_finally (i : nat) (s : State) :
  terms_nonblank s -> terms_nonblank (finally i s).
Proof.
  intros (R & T & D & F). repeat split; try assumption.
  simpl. now apply Forall_update.
Qed.

Lemma terms_nonblank_handle (e : Event) (s : State) :
  terms_nonblank s -> terms_nonblank (handle e s).
Proof.
  intros Hs. pose proof Hs as (R & T & D & F).
  destruct e; simpl; try (repeat split; assumption).
  - (* the Search button *)
    unfold clickSearch. destruct (nonempty (trim (query s))) eqn:E; [| exact Hs].
    repeat split; try assumption. simpl. right. now rewrite nonblank_trim.
  - (* the Clear button *)
    repeat split; try assumption. simpl. now left.
  - (* a recent-search chip *)
    destruct (existsb (String.eqb term) (recent s)) eqn:E; [| exact Hs].
    repeat split; try assumption. simpl. right.
    apply existsb_exists in E as (x & Hx & E). apply String.eqb_eq in E. subst x.
    rewrite forallb_forall in R. now apply R.
  - unfold nextPage. now destruct (page s <? pageCount s).
  - unfold prevPage. now destruct (1 <? page s).
  - (* time passes *)
    unfold elapse. simpl. destruct (debounceRef s) as [[due captured] |] eqn:E.
    + destruct (due <=? now s + dt)%N; [| exact Hs].
      repeat split; try assumption; simpl; [| discriminate].
      right. rewrite nonblank_trim. now apply D with due.
    + exact Hs.
  - apply terms_nonblank_resume; [| exact Hs]. intros c t Hc Ht.
    destruct (ok status).
    + destruct Ht as (R' & T' & D' & F'). repeat split; try assumption.
      simpl. now apply Forall_update.
    + apply terms_nonblank_finally. destruct Ht as (R' & T' & D' & F').
      repeat split; assumption.
  - apply terms_nonblank_resume; [| exact Hs]. intros c t Hc Ht.
    apply terms_nonblank_finally. destruct Ht as (R' & T' & D' & F').
    repeat split; assumption.
  - apply terms_nonblank_resume; [| exact Hs]. intros c t Hc Ht.
    apply terms_nonblank_finally. destruct Ht as (R' & T' & D' & F').
    repeat split; try assumption.
    simpl. now apply forallb_recordRecent.
  - apply terms_nonblank_resume; [| exact Hs]. intros c t Hc Ht.
    apply terms_nonblank_finally. destruct Ht as (R' & T' & D' & F').
    repeat split; assumption.
Qed.

Lemma terms_nonblank_debounceEffect (s : State) :
  terms_nonblank s -> terms_nonblank (debounceEffect s).
Proof.
  intros (R & T & D & F). unfold debounceEffect. simpl.
  destruct (nonempty (trim (query s))) eqn:E; repeat split; try assumption;
    simpl; try discriminate.
  now intros due captured [= _ <-].
Qed.

Lemma terms_nonblank_fetchEffect (s : State) :
  terms_nonblank s -> terms_nonblank (fetchEffect s).
Proof.
  intros (R & T & D & F).
  assert (F' : Forall (fun c => nonblank (call_term c) = true)
                 (calls (cleanup s))).
  { unfold cleanup. destruct (controller s); [| exact F].
    simpl. now apply Forall_update. }
  assert (R' : recent (fetchEffect s) = recent s)
    by (unfold fetchEffect, cleanup, abort, resumeAborted; by_cases).
  assert (T' : searchTerm (fetchEffect s) = searchTerm s)
    by (unfold fetchEffect, cleanup, abort, resumeAborted; by_cases).
  unfold terms_nonblank.
  rewrite R', T', debounceRef_fetchEffect. repeat split; try assumption.
  destruct (fetchEffect_net s) as [(N & -> & _) | (_ & -> & _)]; [| exact F'].
  apply Forall_app. split; [exact F' |]. constructor; [| constructor].
  simpl. destruct T as [T | T]; [| exact T].
  rewrite T in N. discriminate.
Qed.

Lemma terms_nonblank_step (s : State) (e : Event) :
  terms_nonblank s -> terms_nonblank (step s e).
Proof.
  intros H. apply terms_nonblank_handle with (e := e) in H.
  unfold step, commit.
  repeat break_match;
    auto using terms_nonblank_fetchEffect, terms_nonblank_debounceEffect.
Qed.

(** From a store whose recent searches are not blank, no state that the
    component reaches holds a blank term. *)
Lemma terms_nonblank_run (st : Storage) (events : list Event) :
  forallb nonblank (list_or_empty (bf_recent st)) = true ->
  terms_nonblank (run (init st) events).
Proof.
  intros H.
  assert (I : terms_nonblank (init st)).
  { repeat split; simpl; auto. discriminate. }
  revert I. generalize (init st). clear H.
  induction events as [| e events IH]; intros s I; [exact I |].
  simpl. apply IH. now apply terms_nonblank_step.
Qed.

(** ** The call in flight is the one for the current parameters *)

Lemma controller_handle (e : Event) (s : State) :
  controller (handle e s) = controller s.
Proof.
  destruct e; simpl;
    unfold clickSearch, nextPage, prevPage, elapse, debounceCallback,
      fetchResolved, fetchRejected, jsonResolved, jsonRejected, resume;
    by_cases.
Qed.

Lemma same_request_update (i j : nat) (p : Phase) (l : list Call) (c' : Call) :
  nth_error (update j (set_call_phase p) l) i = Some c' ->
  exists c, nth_error l i = Some c /\ same_request c c'.
Proof.
  destruct (Nat.eq_dec j i) as [-> | N].
  - rewrite nth_error_update_same.
    destruct (nth_error l i) as [c |]; [| discriminate].
    intros [= <-]. exists c. now repeat split.
  - rewrite nth_error_update_other by exact N.
    intros H. exists c'. now repeat split.
Qed.

Lemma calls_handle (e : Event) (s : State) (i : nat) (c' : Call) :
  nth_error (calls (handle e s)) i = Some c' ->
  exists c, nth_error (calls s) i = Some c /\ same_request c c'.
Proof.
  assert (Same : nth_error (calls s) i = Some c' ->
                 exists c, nth_error (calls s) i = Some c /\ same_request c c')
    by (intros H; exists c'; now repeat split).
  destruct e; simpl; try exact Same;
    unfold clickSearch, nextPage, prevPage, elapse, debounceCallback,
      fetchResolved, fetchRejected, jsonResolved, jsonRejected, resume;
    repeat break_match; simpl; try exact Same; apply same_request_update.
Qed.

Lemma live_call_current_step (s : State) (e : Event) :
  live_call_current s -> live_call_current (step s e).
Proof.
  intros H. unfold step, commit.
  set (t := handle e s).
  set (t' := if (query s =? query t)%string then t else debounceEffect t).
  assert (Q : searchTerm t' = searchTerm t /\ page t' = page t
              /\ sortBy t' = sortBy t /\ calls t' = calls t
              /\ controller t' = controller t)
    by (unfold t', debounceEffect; by_cases; auto).
  destruct Q as (Qt & Qp & Qs & Qc & Qk).
  destruct (_ && _) eqn:E.
  - (* no dependency of the fetch effect changed *)
    apply andb_prop in E as [E Eg]. apply andb_prop in E as [E Es].
    apply andb_prop in E as [Et Ep].
    apply String.eqb_eq in Et. apply Z.eqb_eq in Ep. apply SortMode_eqb_eq in Es.
    intros i c' Hk Hc. rewrite Qt, Qp, Qs, <- Et, <- Ep, <- Es.
    rewrite Qk in Hk. rewrite Qc in Hc. unfold t in Hk, Hc.
    rewrite controller_handle in Hk.
    apply calls_handle in Hc as (c & Hc & (-> & -> & ->)).
    now apply (H i c).
  - (* the fetch effect ran *)
    assert (T : searchTerm (fetchEffect t') = searchTerm t'
                /\ page (fetchEffect t') = page t'
                /\ sortBy (fetchEffect t') = sortBy t')
      by (unfold fetchEffect, cleanup, abort, resumeAborted; by_cases; auto).
    destruct T as (Tt & Tp & Ts).
    intros i c Hk Hc. rewrite Tt, Tp, Ts.
    destruct (fetchEffect_net t') as [(_ & Ec & Ek) | (_ & _ & Ek)];
      rewrite Ek in Hk; [| discriminate].
    injection Hk as <-. rewrite Ec, <- length_cleanup in Hc.
    rewrite nth_error_app2, Nat.sub_diag in Hc by lia.
    injection Hc as <-. auto.
Qed.

Lemma live_call_current_run (st : Storage) (events : list Event) :
  live_call_current (run (init st) events).
Proof.
  assert (I : live_call_current (init st)) by (intros i c; discriminate).
  revert I. generalize (init st).
  induction events as [| e events IH]; intros s I; [exact I |].
  simpl. apply IH. now apply live_call_current_step.
Qed.

(** In every state the component reaches, a response body that is
    delivered is sorted by the sort order on display, and recorded under
    the committed term. *)
Lemma success_uses_current (st : Storage) (events : list Event) (i : nat)
    (data : Data) :
  let s := run (init st) events in
  awaited s (JsonResolved i data) = true ->
  results (step s (JsonResolved i data))
  = sortDocs (sortBy s) (list_or_empty (data_docs data))
  /\ numFound (step s (JsonResolved i data)) = num_or (data_numFound data) 0
  /\ recent (step s (JsonResolved i data))
     = recordRecent (searchTerm s) (recent s)
  /\ loading (step s (JsonResolved i data)) = false.
Proof.
  intros s Ha. simpl in Ha.
  destruct (nth_error (calls s) i) as [c |] eqn:Hc; [| discriminate].
  apply Phase_eqb_eq in Ha.
  assert (K : controller s = Some i).
  { apply sequenced_pending with c; [| exact Hc | congruence].
    apply sequenced_run, sequenced_init. }
  destruct (live_call_current_run st events i c K Hc) as (Et & _ & Es).
  rewrite (step_JsonResolved s i c data Hc Ha), Et, Es.
  repeat split.
Qed.

(** * Further properties *)

(** ** Paging *)

Lemma pageCount_spec (s : State) :
  page s < pageCount s <-> page s * 20 < numFound s.
Proof.
  unfold pageCount, RESULTS_PER_PAGE.
  pose proof (Z.div_mod (- numFound s) 20 ltac:(lia)) as D.
  pose proof (Z.mod_pos_bound (- numFound s) 20 ltac:(lia)) as B.
  lia.
Qed.

(** X1.  The Next button advances exactly when there are matches beyond
    the current page, that is when [page * 20 < numFound]; otherwise it
    changes nothing.  From a page number, Prev undoes Next. *)
Theorem nextPage_advances_iff_more : forall (s : State),
  (page s * 20 < numFound s -> nextPage s = set_page (page s + 1) s)
  /\ (numFound s <= page s * 20 -> nextPage s = s)
  /\ (page s * 20 < numFound s -> 1 <= page s -> prevPage (nextPage s) = s)
  /\ (page s <= 1 -> prevPage s = s).
Proof.
  intros s. pose proof (pageCount_spec s) as P. unfold nextPage, prevPage.
  repeat split.
  - intros H. apply P, Z.ltb_lt in H. now rewrite H.
  - intros H. destruct (page s <? pageCount s) eqn:E; [| reflexivity].
    apply Z.ltb_lt, P in E. lia.
  - intros H H1. apply P, Z.ltb_lt in H. rewrite H. simpl.
    assert (E : (1 <? page s + 1) = true) by (apply Z.ltb_lt; lia).
    rewrite E. replace (page s + 1 - 1) with (page s) by lia. now destruct s.
  - intros H. assert (E : (1 <? page s) = false) by (apply Z.ltb_ge; lia).
    now rewrite E.
Qed.

(** ** The star and the favorites *)

Lemma isFavorite_cons (book b : Book) (favs : list Book) :
  isFavorite book (b :: favs) = (key b =? key book)%string || isFavorite book favs.
Proof. reflexivity. Qed.

Lemma isFavorite_filter_other (book other : Book) (favs : list Book) :
  key other <> key book ->
  isFavorite other (filter (fun b => negb (key b =? key book)%string) favs)
  = isFavorite other favs.
Proof.
  intros N. induction favs as [| b favs IH]; [reflexivity |].
  simpl filter. destruct (key b =? key book)%string eqn:E; simpl negb; cbv iota.
  - rewrite isFavorite_cons, IH. apply String.eqb_eq in E.
    assert (F : (key b =? key other)%string = false)
      by (apply String.eqb_neq; congruence).
    now rewrite F.
  - now rewrite !isFavorite_cons, IH.
Qed.

(** X2.  Toggling a book flips its star and no other: afterwards the book
    is a favorite exactly when it was not one before, and a book with
    another key is a favorite exactly when it was one before. *)
Theorem toggle_flips_star : forall (book other : Book) (favs : list Book),
  isFavorite book (toggleFavorite book favs) = negb (isFavorite book favs)
  /\ (key other <> key book ->
      isFavorite other (toggleFavorite book favs) = isFavorite other favs).
Proof.
  intros book other favs. destruct (isFavorite book favs) eqn:E.
  - rewrite (toggleFavorite_present _ _ E). split.
    + apply isFavorite_filter.
    + apply isFavorite_filter_other.
  - rewrite (toggleFavorite_absent _ _ E). split.
    + rewrite isFavorite_cons. simpl. now rewrite String.eqb_refl.
    + intros N. rewrite isFavorite_cons. simpl.
      assert (F : (key book =? key other)%string = false)
        by (apply String.eqb_neq; congruence).
      now rewrite F.
Qed.

Lemma isFavorite_In (book : Book) (favs : list Book) :
  isFavorite book favs = true <-> In (key book) (map key favs).
Proof.
  unfold isFavorite. rewrite existsb_exists, in_map_iff.
  split; intros (b & H1 & H2).
  - apply String.eqb_eq in H2. eauto.
  - exists b. split; [exact H2 | now apply String.eqb_eq].
Qed.

Lemma NoDup_keys_filter (p : Book -> bool) (favs : list Book) :
  NoDup (map key favs) -> NoDup (map key (filter p favs)).
Proof.
  induction favs as [| b favs IH]; simpl; intros H; [constructor |].
  inversion H as [| k ks Hk Hks]; subst.
  destruct (p b); simpl; [| now apply IH].
  constructor; [| now apply IH].
  intros I. apply Hk. apply in_map_iff in I as (x & Hx & I).
  apply filter_In in I as [I _]. apply in_map_iff. eauto.
Qed.

Lemma toggleFavorite_NoDup (book : Book) (favs : list Book) :
  NoDup (map key favs) -> NoDup (map key (toggleFavorite book favs)).
Proof.
  intros H. destruct (isFavorite book favs) eqn:E.
  - rewrite (toggleFavorite_present _ _ E). now apply NoDup_keys_filter.
  - rewrite (toggleFavorite_absent _ _ E). simpl. constructor; [| exact H].
    intros I. apply isFavorite_In in I. congruence.
Qed.

(** X3.  The remove button of a favorite: when the keys of the favorites
    are distinct, toggling an entry of the list takes out that entry and
    leaves the others in their order. *)
Theorem toggle_removes_listed : forall (fav : Book) (favs : list Book),
  NoDup (map key favs) -> In fav favs ->
  exists before after,
    favs = (before ++ fav :: after)%list
    /\ toggleFavorite fav favs = (before ++ after)%list.
Proof.
  intros fav favs N I.
  destruct (in_split _ _ I) as (before & after & ->).
  exists before, after. split; [reflexivity |].
  rewrite toggleFavorite_present.
  - rewrite map_app in N. simpl in N.
    assert (Nk : ~ In (key fav) (map key before ++ map key after))
      by (apply NoDup_remove_2; exact N).
    rewrite filter_app. simpl. rewrite String.eqb_refl. simpl.
    rewrite !filter_all; [reflexivity | |];
      intros x Hx; apply negb_true_iff, String.eqb_neq; intros K;
      apply Nk, in_or_app; [right | left]; apply in_map_iff; eauto.
  - apply isFavorite_In, in_map, I.
Qed.

Lemma toggle_removes_listed_witness :
  exists before after,
    [favA; favB; favC] = (before ++ favB :: after)%list
    /\ toggleFavorite favB [favA; favB; favC] = (before ++ after)%list.
Proof.
  apply (toggle_removes_listed favB [favA; favB; favC]).
  - repeat constructor; simpl; intuition discriminate.
  - simpl. auto.
Defined.

(** ** The recent searches as a bounded history *)

Lemma filter_others_absent (term : string) (prev : list string) :
  ~ In term prev -> filter (fun x => negb (x =? term)%string) prev = prev.
Proof.
  intros N. apply filter_all. intros x Hx.
  apply negb_true_iff, String.eqb_neq. congruence.
Qed.

(** X4.  Recording a term that is not in the list: with fewer than 8
    entries every entry is kept behind the new term; with 8 or more the new
    term is followed by the first 7, so the oldest entries are dropped. *)
Theorem recordRecent_evicts_oldest : forall (term : string) (prev : list string),
  ~ In term prev ->
  ((List.length prev < 8)%nat -> recordRecent term prev = term :: prev)
  /\ ((8 <= List.length prev)%nat ->
      recordRecent term prev = term :: firstn 7 prev
      /\ List.length (recordRecent term prev) = 8%nat).
Proof.
  intros term prev N. rewrite recordRecent_cons, (filter_others_absent _ _ N).
  split; intros H.
  - now rewrite firstn_all2 by lia.
  - split; [reflexivity |]. cbn [List.length]. rewrite length_firstn. lia.
Qed.

Lemma recordRecent_evicts_oldest_witness :
  recordRecent "i" ["a"; "b"; "c"; "d"; "e"; "f"; "g"; "h"]
  = "i" :: firstn 7 ["a"; "b"; "c"; "d"; "e"; "f"; "g"; "h"]
  /\ List.length (recordRecent "i" ["a"; "b"; "c"; "d"; "e"; "f"; "g"; "h"])
     = 8%nat.
Proof.
  apply (recordRecent_evicts_oldest "i" ["a"; "b"; "c"; "d"; "e"; "f"; "g"; "h"]).
  - simpl. intuition discriminate.
  - simpl. lia.
Defined.

Lemma length_filter_others (term : string) (prev : list string) :
  NoDup prev -> In term prev ->
  S (List.length (filter (fun x => negb (x =? term)%string) prev))
  = List.length prev.
Proof.
  induction 1 as [| x prev Hx Hn IH]; intros I; [contradiction |].
  simpl. destruct (x =? term)%string eqn:E; simpl.
  - apply String.eqb_eq in E. subst x.
    now rewrite (filter_others_absent _ _ Hx).
  - f_equal. apply IH. destruct I as [-> | I]; [| exact I].
    now rewrite String.eqb_refl in E.
Qed.

Lemma Permutation_move_front (term : string) (prev : list string) :
  In term prev -> NoDup prev ->
  Permutation prev (term :: filter (fun x => negb (x =? term)%string) prev).
Proof.
  intros I N. induction N as [| x prev Hx Hn IH]; [contradiction |].
  simpl. destruct (x =? term)%string eqn:E; simpl.
  - apply String.eqb_eq in E. subst x.
    now rewrite (filter_others_absent _ _ Hx).
  - destruct I as [-> | I]; [now rewrite String.eqb_refl in E |].
    rewrite perm_swap. apply perm_skip. now apply IH.
Qed.

(** X5.  Recording a term that is already in a history of distinct terms
    of at most 8 entries moves it to the front and drops nothing: the new
    list has the same terms and the same length. *)
Theorem recordRecent_moves_to_front : forall (term : string) (prev : list string),
  NoDup prev -> (List.length prev <= 8)%nat -> In term prev ->
  recordRecent term prev
  = term :: filter (fun x => negb (x =? term)%string) prev
  /\ Permutation prev (recordRecent term prev)
  /\ List.length (recordRecent term prev) = List.length prev.
Proof.
  intros term prev N L I.
  pose proof (length_filter_others term prev N I) as F.
  assert (E : recordRecent term prev
              = term :: filter (fun x => negb (x =? term)%string) prev).
  { rewrite recordRecent_cons. f_equal. apply firstn_all2. lia. }
  rewrite E. repeat split.
  - now apply Permutation_move_front.
  - simpl. exact F.
Qed.

Lemma recordRecent_moves_to_front_witness :
  recordRecent "emma" ["dune"; "emma"; "ulysses"]
  = "emma" :: filter (fun x => negb (x =? "emma")%string) ["dune"; "emma"; "ulysses"]
  /\ Permutation ["dune"; "emma"; "ulysses"]
       (recordRecent "emma" ["dune"; "emma"; "ulysses"])
  /\ List.length (recordRecent "emma" ["dune"; "emma"; "ulysses"])
     = List.length ["dune"; "emma"; "ulysses"].
Proof.
  apply (recordRecent_moves_to_front "emma" ["dune"; "emma"; "ulysses"]).
  - repeat constructor; simpl; intuition discriminate.
  - simpl. lia.
  - simpl. auto.
Defined.

(** ** Sorting twice *)

Lemma js_sort_sorted_id {A : Type} (key : A -> Z) (comparefn : A -> A -> Z)
    (l : list A) :
  (forall a b, comparefn a b = key a - key b) ->
  StronglySorted (fun a b => key a <= key b) l ->
  js_sort comparefn l = l.
Proof.
  intros H S. symmetry. apply (js_sort_unique key comparefn H).
  repeat split; [reflexivity | exact S].
Qed.

(** X6.  Sorting is idempotent: applying the sort order of the selector to
    a list that is already in that order changes nothing, so a response that
    arrives sorted is displayed as it came. *)
Theorem sortDocs_idempotent : forall (sortBy : SortMode) (docs : list Book),
  sortDocs sortBy (sortDocs sortBy docs) = sortDocs sortBy docs.
Proof.
  intros [] docs; simpl; [reflexivity | |].
  - apply (js_sort_sorted_id year_or_0); [reflexivity |].
    apply (js_sort_stable year_or_0 year_asc); reflexivity.
  - assert (H : forall a b, year_desc a b = - year_or_0 a - - year_or_0 b)
      by (intros; unfold year_desc; lia).
    apply (js_sort_sorted_id (fun b => - year_or_0 b)); [exact H |].
    apply (js_sort_stable (fun b => - year_or_0 b) year_desc H).
Qed.

(** ** What a card shows *)

Lemma length_string_app (a b : string) :
  String.length (a ++ b) = (String.length a + String.length b)%nat.
Proof. induction a as [| c a IH]; simpl; [reflexivity | now rewrite IH]. Qed.

Lemma length_substring_0 (m : nat) (s : string) :
  String.length (substring 0 m s) = Nat.min m (String.length s).
Proof.
  revert s. induction m as [| m IH]; intros [| c s]; simpl; try reflexivity.
  now rewrite IH.
Qed.

Lemma substring_0_cut (m : nat) (s t : string) :
  (m <= String.length s)%nat ->
  substring 0 m (substring 0 m s ++ t) = substring 0 m s.
Proof.
  revert s. induction m as [| m IH]; intros s H.
  - destruct s; simpl; now destruct t.
  - destruct s as [| c s]; simpl in *; [lia |].
    f_equal. apply IH. lia.
Qed.

Lemma substring_0_all (m : nat) (s : string) :
  (String.length s <= m)%nat -> substring 0 m s = s.
Proof.
  revert s. induction m as [| m IH]; intros [| c s] H; simpl in *;
    try reflexivity; try lia.
  f_equal. apply IH. lia.
Qed.

(** X7.  A card shows at most three subject chips, none when the book has
    no subjects; a chip is never longer than 23 characters, a subject of at
    most 20 characters is shown in full, and every chip starts with the first
    20 characters of its subject. *)
Theorem subject_chips_bounded : forall (doc : Book),
  (List.length (subjectChips doc) <= 3)%nat
  /\ Forall (fun chip => (String.length chip <= 23)%nat) (subjectChips doc)
  /\ (subject doc = None \/ subject doc = Some [] -> subjectChips doc = [])
  /\ (forall subject,
        ((String.length subject <= 20)%nat -> subjectLabel subject = subject)
        /\ substring 0 20 (subjectLabel subject) = substring 0 20 subject).
Proof.
  intros doc.
  assert (L : forall subject, (String.length (subjectLabel subject) <= 23)%nat).
  { intros x. unfold subjectLabel.
    destruct (20 <? String.length x)%nat eqn:E.
    - rewrite length_string_app, length_substring_0.
      change (String.length "...") with 3%nat. lia.
    - apply Nat.ltb_ge in E. lia. }
  repeat split.
  - unfold subjectChips. destruct (subject doc) as [[| x l] |]; simpl; try lia.
    rewrite length_map.
    change (S (List.length (firstn 2 l)) <= 3)%nat.
    pose proof (firstn_le_length 2 l). lia.
  - unfold subjectChips.
    destruct (subject doc) as [[| x l] |]; [constructor | | constructor].
    apply Forall_forall. intros y Hy.
    apply in_map_iff in Hy as (z & <- & _). apply L.
  - unfold subjectChips. now intros [-> | ->].
  - intros H. unfold subjectLabel.
    apply Nat.ltb_ge in H. now rewrite H.
  - unfold subjectLabel. destruct (20 <? String.length subject0)%nat eqn:E;
      [| reflexivity].
    apply Nat.ltb_lt in E. apply substring_0_cut. lia.
Qed.

(** X8.  The author line of a result is ["Unknown author"] when the book
    has no [author_name], but empty when [author_name] is an empty array; it
    shows the first author, or the first two separated by a comma.  The
    author line of a favorite, in the panel and in the drawer, is never
    empty: it falls back to ["Unknown"] or ["Unknown author"] also for an
    empty array. *)
Theorem author_lines : forall (doc : Book),
  (author_name doc = None -> authorsLine doc = "Unknown author")
  /\ (author_name doc = Some [] ->
      authorsLine doc = ""
      /\ favAuthorsPanel doc = "Unknown"
      /\ favAuthorsDrawer doc = "Unknown author")
  /\ (forall a, author_name doc = Some [a] -> authorsLine doc = a)
  /\ (forall a b rest, author_name doc = Some (a :: b :: rest) ->
      authorsLine doc = (a ++ ", " ++ b)%string)
  /\ favAuthorsPanel doc <> ""
  /\ favAuthorsDrawer doc <> "".
Proof.
  intros doc. unfold authorsLine, favAuthorsPanel, favAuthorsDrawer.
  repeat split.
  - now intros ->.
  - now rewrite H.
  - now rewrite H.
  - now rewrite H.
  - intros a ->. reflexivity.
  - intros a b rest ->. reflexivity.
  - apply str_or_nonempty. discriminate.
  - apply str_or_nonempty. discriminate.
Qed.

(** X9.  A favorite keeps the cover id of the book and nothing else to
    find a cover with: the cover shown for the entry made from a book is the
    one [coverFor] gives for that entry; it is the cover of the book when the
    book has a cover id, and there is none when the cover of the book came
    from an ISBN or from the cover edition key. *)
Theorem favorite_cover_by_id_only : forall (book : Book) (size : string),
  favCover (favoriteEntry book) size = coverFor (favoriteEntry book) size
  /\ (forall id, truthy_num (cover_i book) = Some id ->
      favCover (favoriteEntry book) size = coverFor book size)
  /\ (truthy_num (cover_i book) = None ->
      favCover (favoriteEntry book) size = None).
Proof.
  intros book size. unfold favCover, coverFor. simpl.
  split; [now destruct (truthy_num (cover_i book)) |].
  split; [now intros id -> | now intros ->].
Qed.

(** ** The theme *)

Lemma theme_click_spec (t : Theme) :
  theme_click t
  = mkTheme (negb (darkMode t)) (negb (darkMode t)) (Some (negb (darkMode t))).
Proof.
  unfold theme_click, toggleDarkMode, darkModeEffect. simpl.
  now destruct (darkMode t).
Qed.

(** X10.  After any number of clicks on the theme button, the document
    element has the class [dark] exactly when [darkMode] is true, [darkMode]
    is the stored mode flipped once per click, and mounting again from what
    is in storage gives the same mode. *)
Theorem theme_persisted_and_applied :
  forall (stored : option bool) (html html' : bool) (clicks : nat),
  let t := Nat.iter clicks theme_click (theme_init stored html) in
  html_dark t = darkMode t
  /\ darkMode t
     = xorb (Nat.odd clicks) (match stored with Some b => b | None => false end)
  /\ darkMode (theme_init (bf_darkMode t) html') = darkMode t.
Proof.
  intros stored html html' clicks. cbv zeta.
  induction clicks as [| n (H1 & H2 & H3)].
  - simpl. destruct stored as [[] |]; auto.
  - change (Nat.iter (S n) theme_click (theme_init stored html))
      with (theme_click (Nat.iter n theme_click (theme_init stored html))).
    rewrite theme_click_spec. cbn [html_dark darkMode bf_darkMode].
    repeat split.
    rewrite H2, Nat.odd_succ, <- Nat.negb_odd.
    now destruct (Nat.odd n), stored as [[] |].
Qed.

(** ** Invariants of the transition system *)

Lemma run_invariant (P : State -> Prop) :
  (forall s e, P s -> P (step s e)) ->
  forall events s, P s -> P (run s events).
Proof.
  intros Hstep events. induction events as [| e events IH]; intros s H;
    [exact H |].
  simpl. apply IH, Hstep, H.
Qed.

(** The effects leave the page, the lists and the storage alone. *)
Lemma commit_frame (old new : State) :
  page (commit old new) = page new
  /\ searchTerm (commit old new) = searchTerm new
  /\ sortBy (commit old new) = sortBy new
  /\ favorites (commit old new) = favorites new
  /\ recent (commit old new) = recent new
  /\ storage (commit old new) = storage new
  /\ now (commit old new) = now new.
Proof.
  unfold commit, debounceEffect, fetchEffect, cleanup, abort, resumeAborted.
  repeat break_match; simpl; auto 10.
Qed.

(** A handler leaves the calls as they are, or moves one call to another
    phase. *)
Lemma calls_handle_cases (e : Event) (s : State) :
  calls (handle e s) = calls s
  \/ exists i p, calls (handle e s) = update i (set_call_phase p) (calls s).
Proof.
  destruct e; simpl;
    unfold clickSearch, nextPage, prevPage, elapse, debounceCallback,
      fetchResolved, fetchRejected, jsonResolved, jsonRejected, resume;
    repeat break_match; simpl; auto; right; eauto.
Qed.

Lemma calls_cleanup_cases (s : State) :
  calls (cleanup s) = calls s
  \/ exists i,
       calls (cleanup s)
       = update i (fun c => set_call_phase Settled (set_call_aborted true c))
           (calls s).
Proof. unfold cleanup, abort. destruct (controller s); simpl; eauto. Qed.

Lemma map_request_update (i : nat) (f : Call -> Call) (l : list Call) :
  (forall c, request (f c) = request c) ->
  map request (update i f l) = map request l.
Proof.
  intros H. revert i. induction l as [| c l IH]; intros [| i]; simpl;
    try reflexivity.
  - now rewrite H.
  - now rewrite IH.
Qed.

Lemma requests_handle (e : Event) (s : State) :
  map request (calls (handle e s)) = map request (calls s).
Proof.
  destruct (calls_handle_cases e s) as [-> | (i & p & ->)]; [reflexivity |].
  now apply map_request_update.
Qed.

Lemma requests_cleanup (s : State) :
  map request (calls (cleanup s)) = map request (calls s).
Proof.
  destruct (calls_cleanup_cases s) as [-> | (i & ->)]; [reflexivity |].
  now apply map_request_update.
Qed.

Lemma error_fetchEffect (s : State) :
  nonempty (searchTerm s) = true -> error (fetchEffect s) = None.
Proof.
  intros H. unfold fetchEffect, cleanup, abort, resumeAborted.
  destruct (controller s) as [i |]; simpl; rewrite H;
    repeat break_match; reflexivity.
Qed.

(** What one event does to the list of requests: nothing, or one more
    request, for the term, page and sort order after the event. *)
Lemma requests_step (s : State) (e : Event) :
  map request (calls (step s e)) = map request (calls s)
  \/ (map request (calls (step s e))
      = (map request (calls s)
          ++ [(searchTerm (step s e), page (step s e), RESULTS_PER_PAGE,
               sortBy (step s e))])%list
      /\ nonempty (searchTerm (step s e)) = true
      /\ error (step s e) = None).
Proof.
  destruct (commit_frame s (handle e s)) as (Hp & Ht & Hs & _).
  unfold step in *. rewrite Hp, Ht, Hs. clear Hp Ht Hs.
  pose proof (requests_handle e s) as R.
  unfold commit.
  set (t := handle e s) in *.
  set (t' := if (query s =? query t)%string then t else debounceEffect t).
  assert (Q : calls t' = calls t /\ searchTerm t' = searchTerm t
              /\ page t' = page t /\ sortBy t' = sortBy t
              /\ controller t' = controller t)
    by (unfold t', debounceEffect; by_cases; auto).
  destruct Q as (Qc & Qt & Qp & Qs & Qk).
  destruct (_ && _); [left; now rewrite Qc |].
  destruct (fetchEffect_net t') as [(N & Ec & _) | (_ & Ec & _)].
  - right. rewrite Ec, map_app, requests_cleanup, Qc, R. simpl.
    unfold request at 2. simpl. rewrite Qt, Qp, Qs.
    repeat split; [congruence |].
    now apply error_fetchEffect.
  - left. now rewrite Ec, requests_cleanup, Qc.
Qed.

(** X11.  One event sends at most one request, and a request is always for
    the term, the page and the sort order that are current after the event,
    with a page size of 20; whenever a request is sent, [error] is cleared.
    The requests sent earlier stay as they were. *)
Theorem each_event_requests_current : forall (s : State) (e : Event),
  map request (calls (step s e)) = map request (calls s)
  \/ (map request (calls (step s e))
      = (map request (calls s)
          ++ [(searchTerm (step s e), page (step s e), 20, sortBy (step s e))])%list
      /\ searchTerm (step s e) <> ""
      /\ error (step s e) = None).
Proof.
  intros s e. destruct (requests_step s e) as [H | (H & N & E)]; [now left |].
  right. repeat split; try assumption.
  intros K. rewrite K in N. discriminate.
Qed.

Lemma page_handle (e : Event) (s : State) :
  1 <= page s -> 1 <= page (handle e s).
Proof.
  intros H. destruct e; simpl;
    unfold clickSearch, nextPage, prevPage, elapse, debounceCallback,
      fetchResolved, fetchRejected, jsonResolved, jsonRejected, resume;
    repeat break_match; simpl; lia.
Qed.

Lemma paged_step (s : State) (e : Event) : paged s -> paged (step s e).
Proof.
  intros [Hp Hc].
  assert (Hp' : 1 <= page (step s e)).
  { unfold step. destruct (commit_frame s (handle e s)) as (-> & _).
    now apply page_handle. }
  split; [exact Hp' |].
  set (limited := fun r : string * Z * Z * SortMode =>
                    1 <= snd (fst (fst r)) /\ snd (fst r) = RESULTS_PER_PAGE).
  assert (F : forall l, Forall limited (map request l)
                <-> Forall (fun c => 1 <= call_page c
                                     /\ call_limit c = RESULTS_PER_PAGE) l).
  { intros l. rewrite Forall_map. reflexivity. }
  apply F. apply F in Hc.
  destruct (requests_step s e) as [-> | (-> & _)]; [exact Hc |].
  apply Forall_app. split; [exact Hc |].
  constructor; [| constructor]. split; [exact Hp' | reflexivity].
Qed.

(** X12.  In every state the component reaches the page is at least 1,
    and every request that was sent asked for a page that is at least 1 with
    a page size of 20. *)
Theorem page_is_a_page_number : forall (st : Storage) (events : list Event),
  1 <= page (run (init st) events)
  /\ Forall (fun c => 1 <= call_page c /\ call_limit c = 20)
       (calls (run (init st) events)).
Proof.
  intros st events. apply (run_invariant paged paged_step).
  split; [simpl; lia | constructor].
Qed.

(** ** The lists and the storage *)

Lemma lists_handle (e : Event) (s : State) :
  (favorites (handle e s) = favorites s /\ bf_favs (storage (handle e s)) = bf_favs (storage s))
  \/ (exists book, e = ToggleFavorite book)
  \/ e = ClearFavorites.
Proof.
  destruct e; simpl; eauto; left;
    unfold clickSearch, nextPage, prevPage, elapse, debounceCallback,
      fetchResolved, fetchRejected, jsonResolved, jsonRejected, resume,
      clearRecent, finally, catch, record;
    repeat break_match; simpl; auto.
Qed.

Lemma recent_handle (e : Event) (s : State) :
  (recent (handle e s) = recent s
   /\ bf_recent (storage (handle e s)) = bf_recent (storage s))
  \/ (recent (handle e s) = []
      /\ bf_recent (storage (handle e s)) = None)
  \/ (exists i c,
        nth_error (calls s) i = Some c
        /\ recent (handle e s) = recordRecent (call_term c) (recent s)
        /\ bf_recent (storage (handle e s))
           = Some (recordRecent (call_term c) (recent s))).
Proof.
  destruct e; simpl;
    try (left;
         unfold clickSearch, nextPage, prevPage, elapse, debounceCallback,
           fetchResolved, fetchRejected, jsonRejected, resume,
           clearFavorites, toggle, finally, catch;
         repeat break_match; simpl; auto; fail).
  - right; left. auto.
  - unfold jsonResolved, resume.
    destruct (nth_error (calls s) i) as [c |] eqn:Hc; [| now left].
    destruct (Phase_eqb (call_phase c) AwaitJson); [| now left].
    right; right. exists i, c. auto.
Qed.

Lemma lists_persisted_step (s : State) (e : Event) :
  lists_persisted s -> lists_persisted (step s e).
Proof.
  intros [Hf Hr]. unfold lists_persisted, step.
  destruct (commit_frame s (handle e s)) as (_ & _ & _ & -> & -> & -> & _).
  split.
  - destruct (lists_handle e s) as [[-> ->] | [(book & ->) | ->]];
      [exact Hf | reflexivity | reflexivity].
  - destruct (recent_handle e s)
      as [[-> ->] | [[-> ->] | (i & c & _ & -> & ->)]];
      [exact Hr | reflexivity | reflexivity].
Qed.

(** X13.  Storage always holds the favorites and the recent searches that
    are in memory: after any sequence of events, mounting the component
    again from what is in storage gives the same two lists. *)
Theorem restart_restores_lists : forall (st : Storage) (events : list Event),
  favorites (init (storage (run (init st) events)))
  = favorites (run (init st) events)
  /\ recent (init (storage (run (init st) events)))
     = recent (run (init st) events).
Proof.
  intros st events.
  destruct (run_invariant lists_persisted lists_persisted_step events (init st))
    as [Hf Hr]; [split; reflexivity |].
  simpl. now rewrite Hf, Hr.
Qed.

Lemma favorites_handle_NoDup (e : Event) (s : State) :
  NoDup (map key (favorites s)) -> NoDup (map key (favorites (handle e s))).
Proof.
  intros H. destruct (lists_handle e s) as [[-> _] | [(book & ->) | ->]];
    [exact H | | constructor].
  simpl. now apply toggleFavorite_NoDup.
Qed.

(** X14.  Favorites are a set of books: when the stored favorites have
    distinct keys, the favorites have distinct keys after any sequence of
    events. *)
Theorem favorites_keys_distinct : forall (st : Storage) (events : list Event),
  NoDup (map key (list_or_empty (bf_favs st))) ->
  NoDup (map key (favorites (run (init st) events))).
Proof.
  intros st events H.
  apply (run_invariant (fun s => NoDup (map key (favorites s)))); [| exact H].
  intros s e Hs. unfold step.
  destruct (commit_frame s (handle e s)) as (_ & _ & _ & -> & _).
  now apply favorites_handle_NoDup.
Qed.

Lemma favorites_keys_distinct_witness :
  NoDup (map key (favorites (run (init used_storage)
                               [ToggleFavorite favC; ToggleFavorite favA;
                                ToggleFavorite favC; ToggleFavorite favC]))).
Proof.
  apply (favorites_keys_distinct used_storage).
  repeat constructor; simpl; intuition discriminate.
Defined.

Lemma NoDup_firstn {A : Type} (n : nat) (l : list A) :
  NoDup l -> NoDup (firstn n l).
Proof.
  intros H. rewrite <- (firstn_skipn n l) in H.
  now apply NoDup_app_remove_r in H.
Qed.

Lemma recordRecent_NoDup (term : string) (prev : list string) :
  NoDup prev -> NoDup (recordRecent term prev).
Proof.
  intros H. apply NoDup_firstn. constructor.
  - intros I. apply filter_In in I as [_ I]. now rewrite String.eqb_refl in I.
  - now apply NoDup_filter.
Qed.

(** X15.  The recent searches are a history without repetition of at most
    8 terms: when the stored list is one, the list is one after any sequence
    of events. *)
Theorem recent_bounded_distinct : forall (st : Storage) (events : list Event),
  NoDup (list_or_empty (bf_recent st)) ->
  (List.length (list_or_empty (bf_recent st)) <= 8)%nat ->
  NoDup (recent (run (init st) events))
  /\ (List.length (recent (run (init st) events)) <= 8)%nat.
Proof.
  intros st events Hn Hl.
  apply (run_invariant
           (fun s => NoDup (recent s) /\ (List.length (recent s) <= 8)%nat));
    [| split; assumption].
  intros s e [Hs Ls]. unfold step.
  destruct (commit_frame s (handle e s)) as (_ & _ & _ & _ & -> & _).
  destruct (recent_handle e s) as [[-> _] | [[-> _] | (i & c & _ & -> & _)]].
  - now split.
  - split; [constructor | simpl; lia].
  - split; [now apply recordRecent_NoDup | apply firstn_le_length].
Qed.

Lemma recent_bounded_distinct_witness :
  NoDup (recent (run (init used_storage)
                   [UseRecent "emma"; FetchResolved 0 200;
                    JsonResolved 0 (mkData (Some 1) (Some [favA]))]))
  /\ (List.length (recent (run (init used_storage)
                             [UseRecent "emma"; FetchResolved 0 200%Z;
                              JsonResolved 0 (mkData (Some 1%Z) (Some [favA]))]))
      <= 8)%nat.
Proof.
  apply (recent_bounded_distinct used_storage).
  - repeat constructor; simpl; intuition discriminate.
  - simpl. lia.
Defined.

(** ** [loading] and the call in flight *)

Lemma pending_update_AwaitJson (s : State) (i j : nat) :
  pending s j = true ->
  pending (set_calls (update i (set_call_phase AwaitJson) (calls s)) s) j = true.
Proof.
  unfold pending. simpl. destruct (Nat.eq_dec i j) as [-> | N].
  - rewrite nth_error_update_same. now destruct (nth_error (calls s) j).
  - now rewrite nth_error_update_other.
Qed.

Lemma loading_in_flight_handle (e : Event) (s : State) :
  loading_in_flight s -> loading_in_flight (handle e s).
Proof.
  intros H.
  destruct e; simpl;
    try (unfold clickSearch, nextPage, prevPage, elapse, debounceCallback;
         repeat break_match; exact H);
    unfold fetchResolved, fetchRejected, jsonResolved, jsonRejected, resume;
    repeat break_match; try exact H; try (intros L; discriminate L).
  intros L. destruct (H L) as (j & K & P). exists j. split; [exact K |].
  now apply pending_update_AwaitJson.
Qed.

Lemma loading_in_flight_fetchEffect (s : State) :
  loading_in_flight s -> loading_in_flight (fetchEffect s).
Proof.
  intros H. unfold fetchEffect.
  set (wasPending := match controller s with
                     | Some i => pending s i
                     | None => false
                     end).
  destruct wasPending eqn:W; [intros L; discriminate L |].
  assert (Lc : loading (cleanup s) = loading s)
    by (unfold cleanup, abort; now destruct (controller s)).
  destruct (nonempty (searchTerm (cleanup s))).
  - intros _. exists (List.length (calls (cleanup s))). split; [reflexivity |].
    unfold pending. simpl.
    now rewrite nth_error_app2, Nat.sub_diag by lia.
  - intros L. simpl in L. rewrite Lc in L.
    destruct (H L) as (i & K & P). unfold wasPending in W.
    rewrite K, P in W. discriminate.
Qed.

Lemma loading_in_flight_step (s : State) (e : Event) :
  loading_in_flight s -> loading_in_flight (step s e).
Proof.
  intros H. apply loading_in_flight_handle with (e := e) in H.
  unfold step, commit.
  assert (D : loading_in_flight (debounceEffect (handle e s))).
  { unfold debounceEffect. repeat break_match; exact H. }
  repeat break_match; auto using loading_in_flight_fetchEffect.
Qed.

Lemma loading_in_flight_run (st : Storage) (events : list Event) :
  loading_in_flight (run (init st) events).
Proof.
  apply (run_invariant loading_in_flight loading_in_flight_step).
  intros L. discriminate L.
Qed.

(** X16.  [loading] is never left on: in every state the component
    reaches, if [loading] is true then the call of the current controller is
    in flight. *)
Theorem loading_means_call_in_flight :
  forall (st : Storage) (events : list Event),
  loading (run (init st) events) = true ->
  exists i, controller (run (init st) events) = Some i
            /\ pending (run (init st) events) i = true.
Proof. intros st events. apply loading_in_flight_run. Qed.

Lemma loading_means_call_in_flight_witness :
  exists i, controller (run (init empty_storage) [Input "dune"; Elapse 450])
            = Some i
            /\ pending (run (init empty_storage) [Input "dune"; Elapse 450]) i
               = true.
Proof.
  apply (loading_means_call_in_flight empty_storage [Input "dune"; Elapse 450]).
  vm_compute. reflexivity.
Defined.

(** ** The controller and the term *)

Lemma controller_iff_term_step (s : State) (e : Event) :
  controller_iff_term s -> controller_iff_term (step s e).
Proof.
  intros H. unfold step, commit.
  set (t := handle e s).
  set (t' := if (query s =? query t)%string then t else debounceEffect t).
  assert (Q : searchTerm t' = searchTerm t /\ controller t' = controller t)
    by (unfold t', debounceEffect; by_cases; auto).
  destruct Q as (Qt & Qk).
  destruct (_ && _) eqn:E.
  - apply andb_prop in E as [E _]. apply andb_prop in E as [E _].
    apply andb_prop in E as [E _]. apply String.eqb_eq in E.
    unfold controller_iff_term. rewrite Qt, Qk, <- E.
    unfold t. now rewrite controller_handle.
  - assert (T : searchTerm (fetchEffect t') = searchTerm t')
      by (unfold fetchEffect, cleanup, abort, resumeAborted; by_cases).
    unfold controller_iff_term. rewrite T.
    destruct (fetchEffect_net t') as [(N & _ & ->) | (N & _ & ->)].
    + split; [discriminate |]. intros K. rewrite K in N. discriminate.
    + split; [| reflexivity]. intros _. unfold nonempty in N.
      apply negb_false_iff, String.eqb_eq in N. exact N.
Qed.

Lemma controller_iff_term_run (st : Storage) (events : list Event) :
  controller_iff_term (run (init st) events).
Proof.
  apply (run_invariant controller_iff_term controller_iff_term_step).
  split; reflexivity.
Qed.

(** ** The pending timeout *)

(** Only the passing of time makes a handler touch the clock or the
    pending timeout. *)
Lemma timeout_handle (e : Event) (s : State) :
  (forall dt, e <> Elapse dt) ->
  debounceRef (handle e s) = debounceRef s /\ now (handle e s) = now s.
Proof.
  intros N. destruct e; simpl;
    try (unfold clickSearch, nextPage, prevPage,
           fetchResolved, fetchRejected, jsonResolved, jsonRejected, resume;
         repeat break_match; simpl; auto; fail).
  match goal with |- context [elapse ?d _] => now elim (N d) end.
Qed.

Lemma debounceRef_commit_same_query (old new : State) :
  query new = query old ->
  debounceRef (commit old new) = debounceRef new.
Proof.
  intros H. unfold commit. rewrite H, String.eqb_refl.
  destruct (_ && _); [reflexivity | apply debounceRef_fetchEffect].
Qed.

(** X17.  Only a change of the text in the search box cancels or
    reschedules the pending timeout: any other event but the passing of time
    (the Search button, the sort selector, paging, a response) leaves it
    pending as it is. *)
Theorem only_typing_reschedules : forall (s : State) (e : Event),
  query (step s e) = query s -> (forall dt, e <> Elapse dt) ->
  debounceRef (step s e) = debounceRef s.
Proof.
  intros s e Hq Ne. unfold step in *. rewrite query_commit in Hq.
  rewrite debounceRef_commit_same_query by exact Hq.
  now apply timeout_handle.
Qed.

Lemma only_typing_reschedules_witness :
  debounceRef (step typed ClickSearch) = debounceRef typed.
Proof.
  apply (only_typing_reschedules typed ClickSearch).
  - vm_compute. reflexivity.
  - discriminate.
Defined.

Lemma timeout_current_step (s : State) (e : Event) :
  timeout_current s -> timeout_current (step s e).
Proof.
  intros H. unfold step.
  destruct (commit_frame s (handle e s)) as (_ & _ & _ & _ & _ & _ & Hn).
  pose proof (query_commit s (handle e s)) as Hq.
  intros due captured. rewrite Hn, Hq.
  destruct (query s =? query (handle e s))%string eqn:E.
  - (* the text is the same *)
    apply String.eqb_eq in E.
    rewrite debounceRef_commit_same_query by now symmetry.
    rewrite <- E.
    destruct e;
      try (match goal with
           | |- context [handle ?ev s] =>
               let T := fresh in
               assert (T : forall dt, ev <> Elapse dt) by discriminate;
               destruct (timeout_handle ev s T) as [-> ->]; apply H
           end; fail).
    match goal with |- context [handle (Elapse ?d) s] => rename d into dt end.
    simpl. unfold elapse. simpl.
    destruct (debounceRef s) as [[due0 captured0] |] eqn:D;
      [| simpl; rewrite D; intros K; discriminate K].
    destruct (H due0 captured0 D) as (Hc & Hb & H1 & H2).
    destruct (due0 <=? now s + dt)%N eqn:L; [intros K; discriminate K |].
    apply N.leb_gt in L. simpl. rewrite D. intros [= <- <-].
    repeat split; try assumption. lia.
  - (* the text changed: the debounce effect ran *)
    unfold commit. rewrite E.
    assert (D : forall t, debounceRef t = debounceRef (debounceEffect (handle e s))
                          -> debounceRef t = Some (due, captured) ->
                captured = query (handle e s) /\ trim captured <> ""
                /\ (now (handle e s) < due)%N /\ (due <= now (handle e s) + 450)%N).
    { intros t ->. unfold debounceEffect, nonempty. simpl.
      destruct (trim (query (handle e s)) =? "")%string eqn:B; simpl;
        [discriminate |].
      intros [= <- <-]. apply String.eqb_neq in B.
      repeat split; try assumption; lia. }
    destruct (_ && _); apply D; [reflexivity | apply debounceRef_fetchEffect].
Qed.

Lemma timeout_current_run (st : Storage) (events : list Event) :
  timeout_current (run (init st) events).
Proof.
  apply (run_invariant timeout_current timeout_current_step).
  intros due captured D. discriminate D.
Qed.

(** X18.  In every state the component reaches, a pending timeout is
    for the text that is in the search box, that text is not blank, and the
    timeout is due in the future and at most 450 ms from now. *)
Theorem pending_timeout_is_current :
  forall (st : Storage) (events : list Event) (due : N) (captured : string),
  debounceRef (run (init st) events) = Some (due, captured) ->
  captured = query (run (init st) events)
  /\ trim captured <> ""
  /\ (now (run (init st) events) < due)%N
  /\ (due <= now (run (init st) events) + 450)%N.
Proof. intros st events. apply timeout_current_run. Qed.

Lemma pending_timeout_is_current_witness :
  "dune" = query (run (init empty_storage) [Input "dune"; Elapse 100])
  /\ trim "dune" <> ""
  /\ (now (run (init empty_storage) [Input "dune"; Elapse 100]) < 450)%N
  /\ (450 <= now (run (init empty_storage) [Input "dune"; Elapse 100]) + 450)%N.
Proof.
  apply (pending_timeout_is_current empty_storage [Input "dune"; Elapse 100]).
  vm_compute. reflexivity.
Defined.

(** ** The error message *)

Lemma error_commit (old new : State) :
  error (commit old new) = error new \/ error (commit old new) = None.
Proof.
  unfold commit, debounceEffect, fetchEffect, cleanup, abort, resumeAborted.
  repeat break_match; simpl; auto.
Qed.

Lemma error_nonempty_handle (e : Event) (s : State) :
  error_nonempty s -> error_nonempty (handle e s).
Proof.
  intros H.
  assert (C : forall (o : option string) (t : State),
            error_nonempty (catch o t)).
  { intros o t m. simpl. intros [= <-]. now apply str_or_nonempty. }
  assert (F : forall i t, error_nonempty t -> error_nonempty (finally i t))
    by (intros i t Ht; exact Ht).
  destruct e; simpl;
    try (unfold clickSearch, nextPage, prevPage, elapse, debounceCallback;
         repeat break_match; exact H);
    try (intros m; discriminate);
    unfold fetchResolved, fetchRejected, jsonResolved, jsonRejected, resume;
    repeat break_match; try exact H; try (apply F, C).
Qed.

Lemma error_nonempty_step (s : State) (e : Event) :
  error_nonempty s -> error_nonempty (step s e).
Proof.
  intros H. apply error_nonempty_handle with (e := e) in H.
  unfold step. intros m.
  destruct (error_commit s (handle e s)) as [-> | ->]; [apply H | discriminate].
Qed.

(** X19.  The error banner is never empty: in every state the component
    reaches, [error] is either none or a message that is not the empty
    string, so [error && ...] shows the banner exactly when there is an
    error. *)
Theorem error_message_never_empty :
  forall (st : Storage) (events : list Event),
  error (run (init st) events) = None
  \/ exists message,
       error (run (init st) events) = Some message /\ message <> "".
Proof.
  intros st events.
  assert (H : error_nonempty (run (init st) events)).
  { apply (run_invariant error_nonempty error_nonempty_step).
    intros m K. discriminate K. }
  destruct (error (run (init st) events)) as [m |] eqn:E; [| now left].
  right. exists m. split; [reflexivity | now apply H].
Qed.

(** ** What the buttons request *)

(** When a dependency of the fetch effect changed and there is a term, the
    render is followed by one new call, for the new parameters. *)
Lemma commit_issues (old new : State) :
  ((searchTerm old =? searchTerm new)%string && (page old =? page new)
   && SortMode_eqb (sortBy old) (sortBy new)
   && (searchTrigger old =? searchTrigger new)) = false ->
  searchTerm new <> "" ->
  exists earlier,
    calls (commit old new)
    = (earlier ++ [mkCall (searchTerm new) (page new) RESULTS_PER_PAGE
                     (sortBy new) false AwaitFetch])%list
    /\ List.length earlier = List.length (calls new)
    /\ map request earlier = map request (calls new).
Proof.
  intros D T. unfold commit. rewrite D.
  set (t' := if (query old =? query new)%string then new else debounceEffect new).
  assert (Q : searchTerm t' = searchTerm new /\ page t' = page new
              /\ sortBy t' = sortBy new /\ calls t' = calls new)
    by (unfold t', debounceEffect; by_cases; auto).
  destruct Q as (Qt & Qp & Qs & Qc).
  destruct (fetchEffect_net t') as [(_ & Ec & _) | (N & _)].
  - exists (calls (cleanup t')). rewrite Ec, Qt, Qp, Qs.
    now rewrite length_cleanup, requests_cleanup, Qc.
  - rewrite Qt in N. unfold nonempty in N.
    apply negb_false_iff, String.eqb_eq in N. contradiction.
Qed.

Lemma trigger_changed (a b c : bool) (n : Z) :
  (a && b && c && (n =? n + 1)) = false.
Proof.
  assert (E : (n =? n + 1) = false) by (apply Z.eqb_neq; lia).
  rewrite E. apply andb_false_r.
Qed.

(** X20.  The Search button does nothing while the text is blank;
    otherwise it commits the trimmed text at page 1 and sends a request for
    it, also when the term, the page and the sort order are the ones already
    on display. *)
Theorem search_button_always_requests : forall (s : State),
  (trim (query s) = "" -> step s ClickSearch = s)
  /\ (trim (query s) <> "" ->
      searchTerm (step s ClickSearch) = trim (query s)
      /\ page (step s ClickSearch) = 1
      /\ exists earlier,
           calls (step s ClickSearch)
           = (earlier ++ [mkCall (trim (query s)) 1 20 (sortBy s)
                            false AwaitFetch])%list
           /\ List.length earlier = List.length (calls s)
           /\ map request earlier = map request (calls s)).
Proof.
  intros s. unfold step. simpl. unfold clickSearch, nonempty. split; intros H.
  - rewrite H. simpl. apply commit_refl.
  - apply String.eqb_neq in H. rewrite H. simpl.
    set (new := set_searchTrigger _ _).
    destruct (commit_frame s new) as (-> & -> & _).
    split; [reflexivity |]. split; [reflexivity |].
    apply (commit_issues s new).
    + apply trigger_changed.
    + now apply String.eqb_neq.
Qed.

(** X21.  A click on a recent search puts the term in the search box,
    commits it at page 1 and sends a request for it at once, without waiting
    for the debounce. *)
Theorem recent_chip_requests_at_once : forall (s : State) (term : string),
  In term (recent s) -> term <> "" ->
  query (step s (UseRecent term)) = term
  /\ searchTerm (step s (UseRecent term)) = term
  /\ page (step s (UseRecent term)) = 1
  /\ exists earlier,
       calls (step s (UseRecent term))
       = (earlier ++ [mkCall term 1 20 (sortBy s) false AwaitFetch])%list
       /\ List.length earlier = List.length (calls s)
       /\ map request earlier = map request (calls s).
Proof.
  intros s term I T. unfold step. simpl.
  assert (E : existsb (String.eqb term) (recent s) = true).
  { apply existsb_exists. exists term. split; [exact I | apply String.eqb_refl]. }
  rewrite E. set (new := useRecent term s).
  rewrite query_commit.
  destruct (commit_frame s new) as (-> & -> & _).
  repeat split.
  apply (commit_issues s new); [apply trigger_changed | exact T].
Qed.

Lemma recent_chip_requests_at_once_witness :
  query (step found (UseRecent "dune")) = "dune"
  /\ searchTerm (step found (UseRecent "dune")) = "dune"
  /\ page (step found (UseRecent "dune")) = 1
  /\ exists earlier,
       calls (step found (UseRecent "dune"))
       = (earlier ++ [mkCall "dune" 1 20 (sortBy found) false AwaitFetch])%list
       /\ List.length earlier = List.length (calls found)
       /\ map request earlier = map request (calls found).
Proof.
  apply (recent_chip_requests_at_once found "dune").
  - vm_compute. auto.
  - discriminate.
Defined.

Lemma results_fetchEffect (s : State) :
  nonempty (searchTerm s) = true -> results (fetchEffect s) = results s.
Proof.
  intros H. unfold fetchEffect, cleanup, abort, resumeAborted.
  destruct (controller s) as [i |]; simpl; rewrite H;
    repeat break_match; reflexivity.
Qed.

(** X22.  The Next button at the last page sends nothing; when there are
    matches beyond the current page and a term is committed, it moves to the
    next page, keeps the results on display until the response comes, and
    sends a request for the same term and sort order at that page. *)
Theorem next_button_requests_next_page : forall (s : State),
  (numFound s <= page s * 20 -> step s NextPage = s)
  /\ (page s * 20 < numFound s -> searchTerm s <> "" ->
      page (step s NextPage) = page s + 1
      /\ searchTerm (step s NextPage) = searchTerm s
      /\ results (step s NextPage) = results s
      /\ exists earlier,
           calls (step s NextPage)
           = (earlier ++ [mkCall (searchTerm s) (page s + 1) 20 (sortBy s)
                            false AwaitFetch])%list
           /\ List.length earlier = List.length (calls s)
           /\ map request earlier = map request (calls s)).
Proof.
  intros s. pose proof (pageCount_spec s) as P. unfold step. simpl.
  unfold nextPage. split.
  - intros H. destruct (page s <? pageCount s) eqn:E; [| apply commit_refl].
    apply Z.ltb_lt, P in E. lia.
  - intros H T. apply P, Z.ltb_lt in H. rewrite H.
    set (new := set_page (page s + 1) s).
    destruct (commit_frame s new) as (-> & -> & _).
    split; [reflexivity |]. split; [reflexivity |].
    assert (D : ((searchTerm s =? searchTerm new)%string && (page s =? page new)
                 && SortMode_eqb (sortBy s) (sortBy new)
                 && (searchTrigger s =? searchTrigger new)) = false).
    { simpl. assert (E : (page s =? page s + 1) = false)
        by (apply Z.eqb_neq; lia).
      now rewrite E, andb_false_r. }
    split; [| now apply (commit_issues s new)].
    unfold commit. rewrite D. simpl. rewrite String.eqb_refl.
    rewrite results_fetchEffect; [reflexivity |].
    unfold nonempty. simpl. apply String.eqb_neq in T. now rewrite T.
Qed.

(** ** The Search button and the debounce together *)

Lemma requests_commit_issues (old new : State) :
  ((searchTerm old =? searchTerm new)%string && (page old =? page new)
   && SortMode_eqb (sortBy old) (sortBy new)
   && (searchTrigger old =? searchTrigger new)) = false ->
  searchTerm new <> "" ->
  map request (calls (commit old new))
  = (map request (calls new)
      ++ [(searchTerm new, page new, RESULTS_PER_PAGE, sortBy new)])%list.
Proof.
  intros D T. destruct (commit_issues old new D T) as (earlier & -> & _ & R).
  now rewrite map_app, R.
Qed.

(** X23.  The Search button does not cancel the debounce.  When the user
    clicks Search while the timeout for the text is pending, the text is
    requested at once, and requested a second time when the timeout is due. *)
Theorem search_then_debounce_requests_twice :
  forall (s : State) (due dt : N),
  debounceRef s = Some (due, query s) -> trim (query s) <> "" ->
  (due <= now s + dt)%N ->
  map request (calls (run s [ClickSearch; Elapse dt]))
  = (map request (calls s)
      ++ [(trim (query s), 1, 20, sortBy s);
          (trim (query s), 1, 20, sortBy s)])%list.
Proof.
  intros s due dt D B L.
  assert (Bn : (trim (query s) =? "")%string = false) by now apply String.eqb_neq.
  assert (Tn : trim (trim (query s)) <> "") by now rewrite trim_idempotent.
  (* the click *)
  set (new1 := handle ClickSearch s).
  assert (E1 : new1 = set_searchTrigger (searchTrigger s + 1)
                        (set_page 1 (set_searchTerm (trim (query s)) s))).
  { unfold new1. simpl. unfold clickSearch, nonempty. now rewrite Bn. }
  set (s1 := step s ClickSearch).
  assert (R1 : map request (calls s1)
               = (map request (calls s) ++ [(trim (query s), 1, 20, sortBy s)])%list).
  { unfold s1, step. fold new1. rewrite requests_commit_issues.
    - now rewrite E1.
    - rewrite E1. apply trigger_changed.
    - now rewrite E1. }
  assert (Q1 : query s1 = query s)
    by (unfold s1, step; fold new1; rewrite query_commit; now rewrite E1).
  assert (D1 : debounceRef s1 = Some (due, query s)).
  { unfold s1, step. fold new1. rewrite debounceRef_commit_same_query.
    - now rewrite E1.
    - now rewrite E1. }
  assert (SN : sortBy s1 = sortBy s /\ now s1 = now s).
  { unfold s1, step. fold new1.
    destruct (commit_frame s new1) as (_ & _ & -> & _ & _ & _ & ->).
    now rewrite E1. }
  destruct SN as [S1 N1].
  (* the timeout *)
  change (run s [ClickSearch; Elapse dt]) with (step s1 (Elapse dt)).
  set (new2 := handle (Elapse dt) s1).
  assert (E2 : new2 = debounceCallback (query s)
                        (set_debounceRef None (set_now (now s1 + dt)%N s1))).
  { unfold new2. simpl. unfold elapse. simpl. rewrite D1, N1.
    apply N.leb_le in L. now rewrite L. }
  unfold step. fold new2. rewrite requests_commit_issues.
  - rewrite E2. simpl. rewrite R1, S1, <- app_assoc. reflexivity.
  - rewrite E2. apply trigger_changed.
  - rewrite E2. exact B.
Qed.

Lemma search_then_debounce_requests_twice_witness :
  map request (calls (run typed [ClickSearch; Elapse 350]))
  = (map request (calls typed)
      ++ [(trim (query typed), 1, 20, sortBy typed);
          (trim (query typed), 1, 20, sortBy typed)])%list.
Proof.
  apply (search_then_debounce_requests_twice typed 450%N 350%N).
  - vm_compute. reflexivity.
  - vm_compute. discriminate.
  - vm_compute. discriminate.
Defined.

(** ** Typing while a call is in flight *)

Lemma calls_step_Input (s : State) (value : string) :
  calls (step s (Input value)) = calls s.
Proof.
  unfold step, commit. simpl.
  rewrite !String.eqb_refl, !Z.eqb_refl, SortMode_eqb_refl. simpl.
  unfold debounceEffect. by_cases.
Qed.

(** X24.  Typing does not cancel the call in flight, not even emptying
    the search box: the list of calls is as before, and when the body of the
    response arrives it is stored as [results]. *)
Theorem typing_keeps_call_in_flight :
  forall (s : State) (value : string) (i : nat) (c : Call) (data : Data),
  nth_error (calls s) i = Some c -> call_phase c = AwaitJson ->
  calls (step s (Input value)) = calls s
  /\ results (run s [Input value; JsonResolved i data])
     = sortDocs (call_sortBy c) (list_or_empty (data_docs data)).
Proof.
  intros s value i c data Hc Hp. split; [apply calls_step_Input |].
  change (run s [Input value; JsonResolved i data])
    with (step (step s (Input value)) (JsonResolved i data)).
  rewrite (step_JsonResolved _ i c data); [reflexivity | | exact Hp].
  now rewrite calls_step_Input.
Qed.

Lemma typing_keeps_call_in_flight_witness :
  calls (step (step searching (FetchResolved 0 200)) (Input "")) 
  = calls (step searching (FetchResolved 0 200))
  /\ results (run (step searching (FetchResolved 0 200))
                [Input ""; JsonResolved 0 (mkData (Some 2) (Some [favA; favB]))])
     = sortDocs (call_sortBy (mkCall "dune" 1 20 Relevance false AwaitJson))
         (list_or_empty (data_docs (mkData (Some 2) (Some [favA; favB])))).
Proof.
  apply (typing_keeps_call_in_flight (step searching (FetchResolved 0 200)) ""
           0%nat (mkCall "dune" 1 20 Relevance false AwaitJson)).
  - vm_compute. reflexivity.
  - reflexivity.
Defined.

(** ** One outcome for each call *)

Lemma settled_ignores (s : State) (i : nat) (e : Event) :
  (forall c, nth_error (calls s) i = Some c -> call_phase c = Settled) ->
  response_of i e = true -> step s e = s.
Proof.
  intros H He. unfold step.
  assert (K : handle e s = s).
  { destruct e; try discriminate; simpl in He; apply Nat.eqb_eq in He;
      subst i0; simpl;
      unfold fetchResolved, fetchRejected, jsonResolved, jsonRejected, resume;
      destruct (nth_error (calls s) i) as [c |] eqn:Hc; try reflexivity;
      rewrite (H c eq_refl); reflexivity. }
  rewrite K. apply commit_refl.
Qed.

Lemma settles_step (s : State) (i : nat) (e : Event) :
  response_of i e = true -> awaited s e = true -> settles e = true ->
  forall c, nth_error (calls (step s e)) i = Some c -> call_phase c = Settled.
Proof.
  intros He Ha Hs c. unfold step.
  destruct e; try discriminate; simpl in He; apply Nat.eqb_eq in He; subst i0;
    simpl in Ha, Hs; simpl handle;
    unfold fetchResolved, fetchRejected, jsonResolved, jsonRejected, resume;
    destruct (nth_error (calls s) i) as [c0 |] eqn:Hc; try discriminate;
    rewrite Ha; try (rewrite (negb_true_iff _) in Hs; rewrite Hs);
    rewrite commit_same_deps by reflexivity; simpl;
    rewrite nth_error_update_same, Hc; now intros [= <-].
Qed.

(** X25.  A call has one outcome: once a response has ended a call (a
    failure of the request, a status that is not 2xx, a body, or a body that
    does not parse), any further response for that call changes nothing. *)
Theorem call_has_one_outcome : forall (s : State) (i : nat) (e e' : Event),
  response_of i e = true -> awaited s e = true -> settles e = true ->
  response_of i e' = true ->
  step (step s e) e' = step s e.
Proof.
  intros s i e e' He Ha Hs He'.
  apply settled_ignores with i; [| exact He'].
  now apply settles_step.
Qed.

Lemma call_has_one_outcome_witness :
  step (step searching (FetchResolved 0 500))
    (JsonResolved 0 (mkData (Some 2) (Some [favA; favB])))
  = step searching (FetchResolved 0 500).
Proof.
  apply (call_has_one_outcome searching 0%nat); vm_compute; reflexivity.
Defined.

(** ** The Clear button *)

Lemma cleared_commit (old new : State) :
  searchTerm new = "" -> results new = [] -> numFound new = 0 ->
  error new = None ->
  results (commit old new) = [] /\ numFound (commit old new) = 0
  /\ error (commit old new) = None.
Proof.
  intros T R N E. unfold commit.
  set (t' := if (query old =? query new)%string then new else debounceEffect new).
  assert (Q : searchTerm t' = "" /\ results t' = [] /\ numFound t' = 0
              /\ error t' = None).
  { unfold t', debounceEffect. repeat break_match; simpl; auto. }
  destruct Q as (Qt & Qr & Qn & Qe).
  destruct (_ && _); [auto |].
  destruct (fetchEffect_no_term t' Qt) as (H1 & H2 & H3 & _). auto.
Qed.

(** X26.  After the Clear button, in any state the component has
    reached: the search box and the committed term are empty, nothing is
    displayed ([results] empty, [numFound] 0, no error, not loading), no
    timeout is pending, no call is in flight, and no response that arrives
    later changes anything. *)
Theorem clear_button_cancels_all : forall (st : Storage) (events : list Event),
  let cleared := step (run (init st) events) ClickClear in
  query cleared = "" /\ searchTerm cleared = ""
  /\ results cleared = [] /\ numFound cleared = 0 /\ error cleared = None
  /\ loading cleared = false
  /\ debounceRef cleared = None
  /\ (forall i, pending cleared i = false)
  /\ (forall i e, response_of i e = true -> step cleared e = cleared).
Proof.
  intros st events cleared.
  assert (Reach : cleared = run (init st) (events ++ [ClickClear]))
    by (unfold cleared, run; now rewrite fold_left_app).
  assert (Q : query cleared = "")
    by (unfold cleared, step; now rewrite query_commit).
  assert (T : searchTerm cleared = "").
  { unfold cleared, step.
    now destruct (commit_frame (run (init st) events)
                    (handle ClickClear (run (init st) events))) as (_ & -> & _). }
  assert (K : controller cleared = None).
  { rewrite Reach. apply controller_iff_term_run. now rewrite <- Reach. }
  assert (Settled_all : forall i c, nth_error (calls cleared) i = Some c ->
                                    call_phase c = Settled).
  { intros i c Hc.
    assert (S : sequenced cleared)
      by (rewrite Reach; apply sequenced_run, sequenced_init).
    destruct S as [_ S]. apply (S i c Hc). rewrite K. discriminate. }
  split; [exact Q |]. split; [exact T |].
  destruct (cleared_commit (run (init st) events)
              (handle ClickClear (run (init st) events)))
    as (R & N & E); try reflexivity.
  fold (step (run (init st) events) ClickClear) in R, N, E. fold cleared in R, N, E.
  split; [exact R |]. split; [exact N |]. split; [exact E |].
  split; [| split; [| split]].
  - destruct (loading cleared) eqn:L; [| reflexivity].
    assert (F : loading_in_flight cleared)
      by (rewrite Reach; apply loading_in_flight_run).
    destruct (F L) as (i & Hi & _). congruence.
  - destruct (debounceRef cleared) as [[due captured] |] eqn:D; [| reflexivity].
    assert (F : timeout_current cleared)
      by (rewrite Reach; apply timeout_current_run).
    destruct (F due captured D) as (Hc & Hb & _).
    rewrite Hc, Q in Hb. now elim Hb.
  - intros i. unfold pending.
    destruct (nth_error (calls cleared) i) as [c |] eqn:Hc; [| reflexivity].
    now rewrite (Settled_all i c Hc).
  - intros i e He. apply settled_ignores with i; [| exact He].
    apply Settled_all.
Qed.

(** ** The terms that are requested *)

(** X27.  The component never asks the catalog for a blank term: from a
    store whose recent searches are not blank, the term of every request it
    sends has a character that is not white space. *)
Theorem never_requests_blank_term : forall (st : Storage) (events : list Event),
  forallb nonblank (list_or_empty (bf_recent st)) = true ->
  Forall (fun c => trim (call_term c) <> "") (calls (run (init st) events)).
Proof.
  intros st events H.
  destruct (terms_nonblank_run st events H) as (_ & _ & _ & F).
  eapply Forall_impl; [| exact F].
  intros c Hc. unfold nonblank, nonempty in Hc.
  apply negb_true_iff, String.eqb_neq in Hc. exact Hc.
Qed.

Lemma never_requests_blank_term_witness :
  Forall (fun c => trim (call_term c) <> "")
    (calls (run (init used_storage)
              [Input "  ulysses "; Elapse 450; UseRecent "emma"; ClickSearch])).
Proof.
  apply (never_requests_blank_term used_storage). vm_compute. reflexivity.
Defined.

(** ** What a delivered body does *)

(** X28.  In every state the component reaches, when the body of the
    response that is awaited arrives, [numFound] becomes the [numFound] of
    the body (0 when it is missing), [results] the [docs] of the body in the
    sort order that is selected, the committed term is recorded in the recent
    searches, and [loading] becomes false. *)
Theorem delivered_body_is_displayed :
  forall (st : Storage) (events : list Event) (i : nat) (data : Data),
  awaited (run (init st) events) (JsonResolved i data) = true ->
  results (step (run (init st) events) (JsonResolved i data))
  = sortDocs (sortBy (run (init st) events)) (list_or_empty (data_docs data))
  /\ numFound (step (run (init st) events) (JsonResolved i data))
     = num_or (data_numFound data) 0
  /\ recent (step (run (init st) events) (JsonResolved i data))
     = recordRecent (searchTerm (run (init st) events))
         (recent (run (init st) events))
  /\ loading (step (run (init st) events) (JsonResolved i data)) = false.
Proof. intros st events i data. apply success_uses_current. Qed.

Lemma delivered_body_is_displayed_witness :
  results (step (run (init empty_storage)
                   [SelectSort YearDesc; Input "dune"; Elapse 450;
                    FetchResolved 0 200])
             (JsonResolved 0 (mkData None (Some [favA; favB]))))
  = sortDocs (sortBy (run (init empty_storage)
                        [SelectSort YearDesc; Input "dune"; Elapse 450;
                         FetchResolved 0 200]))
      (list_or_empty (data_docs (mkData None (Some [favA; favB]))))
  /\ numFound (step (run (init empty_storage)
                       [SelectSort YearDesc; Input "dune"; Elapse 450;
                        FetchResolved 0 200])
                 (JsonResolved 0 (mkData None (Some [favA; favB]))))
     = num_or (data_numFound (mkData None (Some [favA; favB]))) 0
  /\ recent (step (run (init empty_storage)
                     [SelectSort YearDesc; Input "dune"; Elapse 450;
                      FetchResolved 0 200])
               (JsonResolved 0 (mkData None (Some [favA; favB]))))
     = recordRecent (searchTerm (run (init empty_storage)
                                   [SelectSort YearDesc; Input "dune";
                                    Elapse 450; FetchResolved 0 200]))
         (recent (run (init empty_storage)
                    [SelectSort YearDesc; Input "dune"; Elapse 450;
                     FetchResolved 0 200]))
  /\ loading (step (run (init empty_storage)
                      [SelectSort YearDesc; Input "dune"; Elapse 450;
                       FetchResolved 0 200])
                (JsonResolved 0 (mkData None (Some [favA; favB])))) = false.
Proof.
  apply (delivered_body_is_displayed empty_storage
           [SelectSort YearDesc; Input "dune"; Elapse 450; FetchResolved 0 200]
           0%nat (mkData None (Some [favA; favB]))).
  vm_compute. reflexivity.
Defined.

(** * The sequencing of the calls *)

(** ** What a handler and the effects do to the display *)

Lemma numFound_fetchEffect (s : State) :
  nonempty (searchTerm s) = true -> numFound (fetchEffect s) = numFound s.
Proof.
  intros H. unfold fetchEffect, cleanup, abort, resumeAborted.
  destruct (controller s) as [i |]; simpl; rewrite H;
    repeat break_match; reflexivity.
Qed.

(** The effects leave [results] and [numFound] as the render left them,
    or clear them. *)
Lemma display_commit (old new : State) :
  (results (commit old new) = results new \/ results (commit old new) = [])
  /\ (numFound (commit old new) = numFound new \/ numFound (commit old new) = 0).
Proof.
  unfold commit, debounceEffect, fetchEffect, cleanup, abort, resumeAborted.
  repeat break_match; simpl; auto.
Qed.

(** A handler that changes a dependency of the fetch effect leaves
    [results] and [numFound] alone, unless it empties the term. *)
Lemma display_handle_deps (e : Event) (s : State) :
  (searchTerm (handle e s) = searchTerm s /\ page (handle e s) = page s
   /\ sortBy (handle e s) = sortBy s
   /\ searchTrigger (handle e s) = searchTrigger s)
  \/ (results (handle e s) = results s /\ numFound (handle e s) = numFound s)
  \/ searchTerm (handle e s) = "".
Proof.
  destruct e; simpl;
    unfold clickSearch, clickClear, useRecent, nextPage, prevPage, elapse,
      debounceCallback, toggle, clearFavorites, clearRecent,
      fetchResolved, fetchRejected, jsonResolved, jsonRejected, resume,
      finally, catch, record;
    repeat break_match; simpl; auto 6.
Qed.

(** A handler changes the display only when it delivers a response to the
    call that awaits it; any other handler leaves [results], [numFound] and
    [error] alone or clears them. *)
Lemma display_handle (e : Event) (s : State) :
  (exists i, response_of i e = true /\ awaited s e = true)
  \/ ((results (handle e s) = results s \/ results (handle e s) = [])
      /\ (numFound (handle e s) = numFound s \/ numFound (handle e s) = 0)
      /\ (error (handle e s) = error s \/ error (handle e s) = None)).
Proof.
  destruct e; simpl;
    try (right; unfold clickSearch, clickClear, useRecent, nextPage, prevPage,
           elapse, debounceCallback, toggle, clearFavorites, clearRecent;
         repeat break_match; simpl; auto; fail);
    unfold fetchResolved, fetchRejected, jsonResolved, jsonRejected, resume;
    destruct (nth_error (calls s) i) as [c |]; auto;
    destruct (Phase_eqb (call_phase c) _); auto;
    left; exists i; now rewrite Nat.eqb_refl.
Qed.

Lemma length_calls_handle (e : Event) (s : State) :
  List.length (calls (handle e s)) = List.length (calls s).
Proof.
  destruct (calls_handle_cases e s) as [-> | (i & p & ->)];
    now rewrite ?length_update.
Qed.

(** ** Latest call wins *)

(** C1.  After any sequence of events from the mounted component:
    - every call issued before the latest one has been cancelled (its signal
      is aborted and its [fetchBooks] has run to its end);
    - a response for any call other than the latest one changes nothing, so
      it changes neither [results] nor [numFound] nor [error], whenever it
      arrives;
    - an event that issues a new call, and so cancels the call in flight,
      leaves [results] and [numFound] as they were and [error] none, as
      the new call has set it (unless the event also makes the text of the
      search box blank): the cancelled call, which completes in the same
      step, has written none of them, and it and every earlier call are
      cancelled;
    - every event either delivers to the latest call the response it is
      waiting for, or leaves each of [results], [numFound] and [error] as
      it was or cleared;
    - a body of any shape that arrives for a call other than the latest one
      changes nothing. *)
Theorem latest_call_wins : forall (st : Storage) (events : list Event),
  let s := run (init st) events in
  (forall i c, nth_error (calls s) i = Some c ->
     (S i < List.length (calls s))%nat ->
     call_aborted c = true /\ call_phase c = Settled)
  /\ (forall i e, response_of i e = true -> S i <> List.length (calls s) ->
      step s e = s
      /\ results (step s e) = results s
      /\ numFound (step s e) = numFound s
      /\ error (step s e) = error s)
  /\ (forall e,
      List.length (calls (step s e)) = S (List.length (calls s)) ->
      query (step s e) = query s \/ trim (query (step s e)) <> "" ->
      results (step s e) = results s
      /\ numFound (step s e) = numFound s
      /\ error (step s e) = None
      /\ forall i c, nth_error (calls (step s e)) i = Some c ->
           (i < List.length (calls s))%nat ->
           call_aborted c = true /\ call_phase c = Settled)
  /\ (forall e,
      (exists i, response_of i e = true /\ awaited s e = true
                 /\ S i = List.length (calls s))
      \/ ((results (step s e) = results s \/ results (step s e) = [])
          /\ (numFound (step s e) = numFound s \/ numFound (step s e) = 0)
          /\ (error (step s e) = error s \/ error (step s e) = None)))
  /\ (forall i body thrown, S i <> List.length (calls s) ->
      step_body s i body thrown = Some s).
Proof.
  intros st events s.
  assert (Hs : sequenced s) by apply sequenced_run, sequenced_init.
  destruct (sequenced_latest s Hs) as [H1 H2].
  split; [exact H1 |].
  split; [intros i e He Hi; rewrite (H2 i e He Hi); auto |].
  split; [| split].
  - (* an event that issues a call *)
    intros e Hl Hq.
    assert (Old : forall i c, nth_error (calls (step s e)) i = Some c ->
                    (i < List.length (calls s))%nat ->
                    call_aborted c = true /\ call_phase c = Settled).
    { intros i c Hc Hi.
      apply (proj1 (sequenced_latest _ (sequenced_step s e Hs)) i c Hc).
      rewrite Hl. lia. }
    revert Hl Hq Old. unfold step. rewrite query_commit. unfold commit.
    set (t := handle e s).
    set (t' := if (query s =? query t)%string then t else debounceEffect t).
    assert (Q : calls t' = calls t /\ searchTerm t' = searchTerm t)
      by (unfold t', debounceEffect; by_cases; auto).
    destruct Q as (Qc & Qt).
    destruct (_ && _) eqn:D.
    + intros Hl. exfalso. rewrite Qc in Hl. unfold t in Hl.
      rewrite length_calls_handle in Hl. lia.
    + intros Hl Hq Old.
      destruct (fetchEffect_net t') as [(N & _) | (_ & Ec & _)].
      * assert (R : results t' = results t /\ numFound t' = numFound t).
        { unfold t'. destruct (query s =? query t)%string eqn:E; [auto |].
          destruct Hq as [Hq | Hq].
          - apply String.eqb_neq in E. congruence.
          - rewrite debounceEffect_nonblank by exact Hq. auto. }
        destruct R as (Rr & Rn).
        rewrite results_fetchEffect, numFound_fetchEffect, error_fetchEffect
          by exact N.
        rewrite Rr, Rn.
        destruct (display_handle_deps e s) as [(Et & Ep & Eo & Eg) | [[Er En] | T]].
        -- exfalso. fold t in Et, Ep, Eo, Eg.
           rewrite Et, Ep, Eo, Eg in D.
           now rewrite !String.eqb_refl, !Z.eqb_refl, SortMode_eqb_refl in D.
        -- fold t in Er, En. rewrite Er, En. auto.
        -- exfalso. fold t in T. rewrite Qt, T in N. discriminate.
      * exfalso. rewrite Ec, length_cleanup, Qc in Hl. unfold t in Hl.
        rewrite length_calls_handle in Hl. lia.
  - (* every event *)
    intros e. destruct (display_handle e s) as [(i & He & Ha) | (Hr & Hn & He)].
    + left. exists i. split; [exact He | split; [exact Ha |]].
      pose proof Hs as [K _]. apply K.
      destruct e; try discriminate; simpl in He, Ha;
        apply Nat.eqb_eq in He; subst i0;
        destruct (nth_error (calls s) i) as [c |] eqn:Hc; try discriminate;
        apply Phase_eqb_eq in Ha;
        (apply sequenced_pending with c; [exact Hs | exact Hc | congruence]).
    + right. unfold step.
      destruct (display_commit s (handle e s)) as (Cr & Cn).
      pose proof (error_commit s (handle e s)) as Ce.
      repeat split.
      * destruct Cr as [-> | ->]; auto.
      * destruct Cn as [-> | ->]; auto.
      * destruct Ce as [-> | ->]; auto.
  - (* a body of any shape *)
    intros i body thrown Hi. unfold step_body, bodyResolved.
    destruct (nth_error (calls s) i) as [c |] eqn:Hc;
      [| simpl; now rewrite commit_refl].
    destruct (Phase_eqb (call_phase c) AwaitJson) eqn:E;
      [| simpl; now rewrite commit_refl].
    exfalso. apply Phase_eqb_eq in E. apply Hi.
    pose proof Hs as [K _]. apply K.
    apply sequenced_pending with c; [exact Hs | exact Hc | congruence].
Qed.

Lemma latest_call_wins_witness :
  step resorted (JsonResolved 0 (mkData (Some 2) (Some [favA; favB]))) = resorted
  /\ results (step searching (SelectSort YearAsc)) = results searching
  /\ numFound (step searching (SelectSort YearAsc)) = numFound searching
  /\ error (step searching (SelectSort YearAsc)) = None.
Proof.
  unfold resorted, searching. split.
  - refine (proj1 (proj1 (proj2 (latest_call_wins empty_storage
              [Input "dune"; Elapse 450; SelectSort YearAsc])) 0%nat _ _ _)).
    + reflexivity.
    + vm_compute. discriminate.
  - pose proof (proj1 (proj2 (proj2 (latest_call_wins empty_storage
              [Input "dune"; Elapse 450]))) (SelectSort YearAsc)) as H.
    cbv zeta in H. destruct H as (R & N & E & _).
    + vm_compute. reflexivity.
    + left. vm_compute. reflexivity.
    + auto.
Defined.

(** * A response body of another shape *)

(** On a body of the documented shape [bodyResolved] is [jsonResolved]. *)
Lemma bodyResolved_typed (i : nat) (n : option Z) (docs : option (list Book))
    (thrown : option string) (s : State) :
  bodyResolved i (mkBody n (DocsOf docs)) thrown s
  = Some (jsonResolved i (mkData n docs) s).
Proof.
  unfold bodyResolved, jsonResolved, resume. simpl.
  destruct (nth_error (calls s) i) as [c |]; [| reflexivity].
  now destruct (Phase_eqb (call_phase c) AwaitJson).
Qed.

Lemma step_body_typed (i : nat) (n : option Z) (docs : option (list Book))
    (thrown : option string) (s : State) :
  step_body s i (mkBody n (DocsOf docs)) thrown
  = Some (step s (JsonResolved i (mkData n docs))).
Proof. unfold step_body. now rewrite bodyResolved_typed. Qed.

(** Under a sort by year, a body whose [docs] cannot be spread fails the
    call that reads it: [error] becomes a non-empty message, [loading]
    false, [results] stay, and [numFound] is the count of that body. *)
Lemma step_body_unsortable (s : State) (i : nat) (c : Call) (n : option Z)
    (thrown : option string) :
  nth_error (calls s) i = Some c -> call_phase c = AwaitJson ->
  call_sortBy c <> Relevance ->
  exists s', step_body s i (mkBody n NotIterable) thrown = Some s'
    /\ error s' = Some (str_or thrown "Failed to fetch books")
    /\ str_or thrown "Failed to fetch books" <> ""
    /\ loading s' = false
    /\ results s' = results s
    /\ numFound s' = num_or n 0.
Proof.
  intros Hc Hp Hs. unfold step_body, bodyResolved. rewrite Hc, Hp. simpl.
  destruct (call_sortBy c); [contradiction | |];
    (eexists; split; [reflexivity |]);
    rewrite commit_same_deps by reflexivity; simpl;
    (repeat split; now apply str_or_nonempty).
Qed.

(** C5, on the code.  Two books of a total of 2 are on display and a
    second call, sorting by year, is reading the body of its response.  The
    body parses, with the count 5 and with [docs] an object.  The call
    fails: [error] is the message of the [TypeError], [loading] is false and
    [results] are the two books; but [numFound] is 5, set by
    [setNumFound] before [[...docs]] threw.  A call that fails before its
    body is parsed leaves [numFound] at 2. *)
Theorem failed_call_changes_numFound :
  results reading_body = [favA; favB]
  /\ numFound reading_body = 2
  /\ awaited reading_body (JsonRejected 1 None) = true
  /\ (exists s',
        step_body reading_body 1 unsortable_body (Some "docs is not iterable")
        = Some s'
        /\ error s' = Some "docs is not iterable"
        /\ loading s' = false
        /\ results s' = [favA; favB]
        /\ numFound s' = 5
        /\ numFound s' <> numFound reading_body)
  /\ numFound (step reading_body (JsonRejected 1 (Some "Unexpected token <")))
     = 2.
Proof.
  vm_compute. repeat split; try discriminate.
  eexists. repeat split. discriminate.
Qed.

(** * The debounce and the timeouts of the browser *)

(** ** The component state of a tab *)

Lemma handle_set_debounceRef (d : option (N * string)) (e : Event) (s : State) :
  (forall dt, e <> Elapse dt) ->
  handle e (set_debounceRef d s) = set_debounceRef d (handle e s).
Proof.
  intros Ne. destruct s. destruct e; simpl;
    try (unfold clickSearch, clickClear, useRecent, nextPage, prevPage,
           toggle, clearFavorites, clearRecent, pageCount,
           fetchResolved, fetchRejected, jsonResolved, jsonRejected, resume,
           finally, catch, record;
         simpl; repeat break_match; reflexivity).
  now elim (Ne dt).
Qed.

Lemma fetchEffect_set_debounceRef (d : option (N * string)) (s : State) :
  fetchEffect (set_debounceRef d s) = set_debounceRef d (fetchEffect s).
Proof.
  destruct s. unfold fetchEffect, cleanup, abort, resumeAborted, pending. simpl.
  repeat break_match; try reflexivity; simpl in *; congruence.
Qed.

Lemma debounceEffect_set_debounceRef (d : option (N * string)) (s : State) :
  debounceEffect (set_debounceRef d s) = debounceEffect s.
Proof. destruct s. unfold debounceEffect. simpl. reflexivity. Qed.

(** The effects read the state before the render only for the
    dependencies. *)
Lemma commit_old_set_debounceRef (d : option (N * string)) (old new : State) :
  commit (set_debounceRef d old) new = commit old new.
Proof. reflexivity. Qed.

Lemma one_timeout_with_component (c : State) (b : Tab) :
  one_timeout b -> one_timeout (with_component c b).
Proof. intros H. exact H. Qed.

Lemma slot_with_component (c : State) (b : Tab) :
  slot (with_component c b) = slot b.
Proof. reflexivity. Qed.

(** With at most one timeout set, the one of [debounceRef.current],
    clearing it leaves none. *)
Lemma clearCurrent_one_timeout (b : Tab) :
  one_timeout b ->
  clearCurrent b = mkTab (component b) [] (current b) (next_id b).
Proof.
  destruct b as [c ts cur nxt]. unfold one_timeout, clearCurrent, clearTimeout.
  simpl. intros [-> | (t & -> & ->)].
  - now destruct cur.
  - simpl. now rewrite Pos.eqb_refl.
Qed.

(** The debounce effect on the timeouts of the browser is the debounce
    effect on the one timeout of the component state. *)
Lemma tab_debounceEffect_refines (b : Tab) :
  one_timeout b ->
  as_state (tab_debounceEffect b) = debounceEffect (as_state b)
  /\ one_timeout (tab_debounceEffect b).
Proof.
  intros H. unfold tab_debounceEffect.
  rewrite (clearCurrent_one_timeout b H).
  rewrite clearCurrent_one_timeout by (now left).
  unfold as_state at 2. rewrite debounceEffect_set_debounceRef.
  unfold debounceEffect, setTimeout, with_component, as_state, slot. simpl.
  destruct (nonempty (trim (query (component b)))); simpl.
  - rewrite Pos.eqb_refl. simpl. split.
    + now destruct (component b).
    + right. eexists. split; reflexivity.
  - split; [| now left].
    destruct (current b); now destruct (component b).
Qed.

Lemma tab_commit_refines (old : State) (b : Tab) :
  one_timeout b ->
  as_state (tab_commit old b) = commit old (as_state b)
  /\ one_timeout (tab_commit old b).
Proof.
  intros H. unfold tab_commit, commit.
  change (query (as_state b)) with (query (component b)).
  change (searchTerm (as_state b)) with (searchTerm (component b)).
  change (page (as_state b)) with (page (component b)).
  change (sortBy (as_state b)) with (sortBy (component b)).
  change (searchTrigger (as_state b)) with (searchTrigger (component b)).
  destruct (tab_debounceEffect_refines b H) as [E O].
  destruct (query old =? query (component b))%string;
    destruct (_ && _); auto.
  - split; [| exact H]. unfold as_state at 2.
    now rewrite fetchEffect_set_debounceRef.
  - split; [| exact O]. rewrite <- E. unfold as_state.
    now rewrite fetchEffect_set_debounceRef.
Qed.

Lemma commit_old_ext (old old' new : State) :
  query old' = query old -> searchTerm old' = searchTerm old ->
  page old' = page old -> sortBy old' = sortBy old ->
  searchTrigger old' = searchTrigger old ->
  commit old' new = commit old new.
Proof. intros Hq Ht Hp Hs Hg. unfold commit. now rewrite Hq, Ht, Hp, Hs, Hg. Qed.

Lemma as_state_no_timeout (c : State) (cur : option positive) (nxt : positive) :
  as_state (mkTab c [] cur nxt) = set_debounceRef None c.
Proof. unfold as_state, slot. simpl. now destruct cur. Qed.

Lemma as_state_one_timeout (c : State) (t : Timeout) (nxt : positive) :
  as_state (mkTab c [t] (Some (timeout_id t)) nxt)
  = set_debounceRef (Some (timeout_due t, timeout_query t)) c.
Proof. unfold as_state, slot. simpl. now rewrite Pos.eqb_refl. Qed.

(** The passing of time in the browser is the passing of time on the
    component state. *)
Lemma tab_elapse_refines (dt : N) (b : Tab) :
  one_timeout b ->
  as_state (tab_elapse dt b) = step (as_state b) (Elapse dt)
  /\ one_timeout (tab_elapse dt b).
Proof.
  destruct b as [c ts cur nxt]. unfold one_timeout. simpl.
  intros [-> | (t & -> & ->)].
  - (* no timeout is set *)
    change (tab_elapse dt (mkTab c [] cur nxt))
      with (mkTab (set_now (now c + dt) c) [] cur nxt).
    split; [| now left].
    rewrite !as_state_no_timeout. unfold step. simpl handle.
    change (elapse dt (set_debounceRef None c))
      with (set_now (now c + dt) (set_debounceRef None c)).
    rewrite commit_same_deps by reflexivity. now destruct c.
  - rewrite as_state_one_timeout. unfold step. simpl handle.
    unfold tab_elapse, elapse, is_due. simpl.
    destruct (timeout_due t <=? now c + dt)%N; simpl.
    + (* the timeout is due *)
      unfold fire. simpl.
      match goal with
      | |- context [tab_commit ?old ?new] =>
          destruct (tab_commit_refines old new) as [C O]; [now left |]
      end.
      split; [| exact O]. rewrite C.
      unfold with_component. simpl. rewrite as_state_no_timeout.
      rewrite (commit_old_ext c (set_now (now c + dt) c)) by reflexivity.
      rewrite commit_old_set_debounceRef. reflexivity.
    + (* the timeout is not due *)
      split.
      * rewrite as_state_one_timeout, commit_same_deps by reflexivity.
        now destruct c.
      * right. exists t. now split.
Qed.

(** Every event does to the tab what it does to the component state. *)
Lemma tab_step_refines (b : Tab) (e : Event) :
  one_timeout b ->
  as_state (tab_step b e) = step (as_state b) e /\ one_timeout (tab_step b e).
Proof.
  intros H.
  assert (G : (forall dt, e <> Elapse dt) ->
              as_state (tab_commit (component b)
                          (with_component (handle e (component b)) b))
              = step (as_state b) e
              /\ one_timeout (tab_commit (component b)
                                (with_component (handle e (component b)) b))).
  { intros Ne.
    destruct (tab_commit_refines (component b)
                (with_component (handle e (component b)) b)) as [C O];
      [exact H |].
    split; [| exact O]. rewrite C. unfold step, as_state.
    rewrite handle_set_debounceRef by exact Ne. reflexivity. }
  destruct e; try (apply G; intros d; discriminate).
  now apply tab_elapse_refines.
Qed.

Lemma tab_run_refines (events : list Event) (b : Tab) :
  one_timeout b ->
  as_state (tab_run b events) = run (as_state b) events
  /\ one_timeout (tab_run b events).
Proof.
  revert b. induction events as [| e events IH]; intros b H; [now split |].
  destruct (tab_step_refines b e H) as [E O]. simpl.
  destruct (IH (tab_step b e) O) as [E' O']. now rewrite E', E.
Qed.

(** X29.  After any sequence of events from the mounted component, at
    most one timeout is set in the browser, the one of
    [debounceRef.current], and the component state of the tab, with that
    timeout as its [debounceRef], is the state the transition system
    reaches by the same events. *)
Theorem tab_refines : forall (st : Storage) (events : list Event),
  as_state (tab_run (tab_init st) events) = run (init st) events
  /\ one_timeout (tab_run (tab_init st) events).
Proof. intros st events. apply (tab_run_refines events (tab_init st)). now left. Qed.



(** ** The debounce in the browser *)



(** Typing ["d"], ["du"], ["dune "] quickly: after the second value the
    one timeout that is set is the third the browser has handed out. *)
Example quick_typing_one_timeout :
  timeouts (tab_run (tab_init empty_storage) (typing "d" quick_typing))
  = [mkTimeout 3 670 "dune "].
Proof. vm_compute. reflexivity. Qed.
